(** * Pyro package manager: include resolution, staging and archiving

    A shallow embedding of [pyro/PackageManager.py].  Python [str] values are
    modelled as [string] (one [ascii] per character, so [casefold] is the
    ASCII lower-casing), the host is a POSIX system ([os.sep] is a slash,
    [os.curdir] one dot, [os.pardir] two dots, [os.path] is [posixpath]) and
    the file system is an explicit value threaded through the operations. *)

From Stdlib Require Import String Ascii List Bool Arith ZArith Lia DecimalString.
Import ListNotations.
Local Open Scope list_scope.
Local Open Scope string_scope.

(** ** Python string operations *)

Module Str.

Definition chars (s : string) : list ascii := list_ascii_of_string s.
Definition of_chars (l : list ascii) : string := string_of_list_ascii l.

(** The double-quote character, used by the f-strings of the log messages
    and by the quoted arguments of the archiver command. *)
Definition dq : string := String (ascii_of_nat 34) EmptyString.

(** [f'"{s}"'] *)
Definition quoted (s : string) : string := dq ++ s ++ dq.

Fixpoint prefixb (p l : list ascii) : bool :=
  match p, l with
  | [], _ => true
  | _ :: _, [] => false
  | a :: p', b :: l' => Ascii.eqb a b && prefixb p' l'
  end.

(** [s.startswith(p)] *)
Definition startswith (s p : string) : bool := prefixb (chars p) (chars s).

(** [s.endswith(p)] *)
Definition endswith (s p : string) : bool :=
  prefixb (rev (chars p)) (rev (chars s)).

Fixpoint infixb (p l : list ascii) : bool :=
  prefixb p l ||
  match l with
  | [] => false
  | _ :: l' => infixb p l'
  end.

(** [p in s] for two strings: substring containment. *)
Definition contains (p s : string) : bool := infixb (chars p) (chars s).

(** [c in s] for a single character. *)
Definition has_char (c : ascii) (s : string) : bool :=
  existsb (Ascii.eqb c) (chars s).

Definition lower (c : ascii) : ascii :=
  let n := nat_of_ascii c in
  if Nat.leb 65 n && Nat.leb n 90 then ascii_of_nat (n + 32) else c.

(** [s.casefold()] on ASCII text. *)
Definition casefold (s : string) : string := of_chars (map lower (chars s)).

Fixpoint replace1_chars (old new l : list ascii) : list ascii :=
  if prefixb old l then new ++ skipn (List.length old) l
  else match l with
       | [] => []
       | c :: l' => c :: replace1_chars old new l'
       end.

(** [s.replace(old, new, 1)] for a non-empty [old]. *)
Definition replace1 (s old new : string) : string :=
  of_chars (replace1_chars (chars old) (chars new) (chars s)).

(** Index of the first occurrence of [c], if any. *)
Fixpoint find_char (c : ascii) (l : list ascii) : option nat :=
  match l with
  | [] => None
  | a :: l' => if Ascii.eqb a c then Some 0
               else option_map S (find_char c l')
  end.

(** [s.rfind(c)] for a single character: the highest index, or [-1]. *)
Definition rfind (c : ascii) (s : string) : Z :=
  match find_char c (rev (chars s)) with
  | Some i => Z.of_nat (String.length s) - 1 - Z.of_nat i
  | None => (-1)%Z
  end.

(** [s[:i]] and [s[i:]] for an index [0 <= i]. *)
Definition take (i : Z) (s : string) : string :=
  of_chars (firstn (Z.to_nat i) (chars s)).
Definition drop (i : Z) (s : string) : string :=
  of_chars (skipn (Z.to_nat i) (chars s)).

(** [s.split(c)]: the pieces between the occurrences of [c]; always at
    least one piece. *)
Fixpoint split_chars (c : ascii) (l : list ascii) : list (list ascii) :=
  match l with
  | [] => [[]]
  | a :: l' =>
      if Ascii.eqb a c then [] :: split_chars c l'
      else match split_chars c l' with
           | [] => [[a]]
           | w :: ws => (a :: w) :: ws
           end
  end.

Definition split (c : ascii) (s : string) : list string :=
  map of_chars (split_chars c (chars s)).

(** The list without its leading occurrences of [c]. *)
Fixpoint lstrip_chars (c : ascii) (l : list ascii) : list ascii :=
  match l with
  | [] => []
  | a :: l' => if Ascii.eqb a c then lstrip_chars c l' else l
  end.

(** [s.rstrip(c)] *)
Definition rstrip (c : ascii) (s : string) : string :=
  of_chars (rev (lstrip_chars c (rev (chars s)))).

Definition is_empty (s : string) : bool :=
  match s with EmptyString => true | _ => false end.

(** Membership of a string in a Python list of strings. *)
Definition mem (s : string) (l : list string) : bool :=
  existsb (String.eqb s) l.

End Str.

(** ** [posixpath] *)

Module PosixPath.

Definition sep : ascii := "/"%char.
Definition extsep : ascii := "."%char.
Definition curdir : string := ".".
Definition pardir : string := "..".

Definition isabs (s : string) : bool := Str.startswith s "/".

(** [os.path.join(a, b)] *)
Definition join (a b : string) : string :=
  if Str.startswith b "/" then b
  else if Str.is_empty a || Str.endswith a "/" then a ++ b
  else a ++ "/" ++ b.

(** [os.path.join(a, b, c)] *)
Definition join3 (a b c : string) : string := join (join a b) c.

Definition all_seps (s : string) : bool :=
  forallb (Ascii.eqb sep) (Str.chars s).

(** [os.path.split(p)] *)
Definition split (p : string) : string * string :=
  let i := (Str.rfind sep p + 1)%Z in
  let head := Str.take i p in
  let tail := Str.drop i p in
  let head' :=
    if negb (Str.is_empty head) && negb (all_seps head)
    then Str.rstrip sep head else head in
  (head', tail).

Definition dirname (p : string) : string := fst (split p).
Definition basename (p : string) : string := snd (split p).

(** [os.path.splitext(p)]: the extension starts at the last dot of the
    last component, leading dots of that component not counted. *)
Definition splitext (p : string) : string * string :=
  let sepIndex := Str.rfind sep p in
  let dotIndex := Str.rfind extsep p in
  if (sepIndex <? dotIndex)%Z
     && existsb (fun c => negb (Ascii.eqb c extsep))
          (firstn (Z.to_nat (dotIndex - (sepIndex + 1)))
             (skipn (Z.to_nat (sepIndex + 1)) (Str.chars p)))
  then (Str.take dotIndex p, Str.drop dotIndex p)
  else (p, "").

(** The loop of [normpath] over the components, [acc] holding [new_comps]
    in reverse. *)
Fixpoint norm_comps (initial_slashes : bool) (comps acc : list string)
  : list string :=
  match comps with
  | [] => rev acc
  | comp :: rest =>
      if Str.is_empty comp || String.eqb comp "." then
        norm_comps initial_slashes rest acc
      else if negb (String.eqb comp "..")
              || (negb initial_slashes && match acc with [] => true | _ => false end)
              || match acc with
                 | last :: _ => String.eqb last ".."
                 | [] => false
                 end
      then norm_comps initial_slashes rest (comp :: acc)
      else match acc with
           | _ :: acc' => norm_comps initial_slashes rest acc'
           | [] => norm_comps initial_slashes rest acc
           end
  end.

(** [os.path.normpath(path)] *)
Definition normpath (path : string) : string :=
  if Str.is_empty path then "."
  else
    let slashes :=
      if Str.startswith path "/" then
        if Str.startswith path "//" && negb (Str.startswith path "///")
        then "//" else "/"
      else "" in
    let comps := norm_comps (Str.startswith path "/") (Str.split sep path) [] in
    let p := slashes ++ String.concat "/" comps in
    if Str.is_empty p then "." else p.

(** [os.path.abspath(path)] with the working directory given. *)
Definition abspath (cwd path : string) : string :=
  normpath (if isabs path then path else join cwd path).

Fixpoint common_len (a b : list string) : nat :=
  match a, b with
  | x :: a', y :: b' => if String.eqb x y then S (common_len a' b') else 0
  | _, _ => 0
  end.

Definition nonempty_comps (p : string) : list string :=
  filter (fun x => negb (Str.is_empty x)) (Str.split sep p).

(** [os.path.relpath(path, start)] for a non-empty [path]. *)
Definition relpath (cwd path start : string) : string :=
  let start_list := nonempty_comps (abspath cwd start) in
  let path_list := nonempty_comps (abspath cwd path) in
  let i := common_len start_list path_list in
  let rel_list :=
    (repeat pardir (List.length start_list - i) ++ skipn i path_list)%list in
  match rel_list with
  | [] => curdir
  | c :: cs => fold_left join cs c
  end.

End PosixPath.

(** ** [fnmatch] *)

Module Fnmatch.

(** One element of a bracket expression: a character or a range. *)
Inductive item : Type :=
| One (c : ascii)
| Range (lo hi : ascii).

Inductive tok : Type :=
| Star
| AnyChar
| Chr (c : ascii)
| Class (negated : bool) (items : list item).

Fixpoint until_close (l : list ascii) : option (list ascii) :=
  match l with
  | [] => None
  | c :: l' =>
      if Ascii.eqb c "]" then Some []
      else option_map (cons c) (until_close l')
  end.

(** The text of a bracket expression, given what follows the opening
    bracket: an optional [!], an optional closing bracket taken
    literally, then everything up to the next closing bracket.  [None]
    when the bracket is never closed. *)
Definition class_text (l : list ascii) : option (list ascii) :=
  let '(bang, l1) :=
    match l with
    | c :: t => if Ascii.eqb c "!" then ([c], t) else ([], l)
    | [] => ([], l)
    end in
  let '(brk, l2) :=
    match l1 with
    | c :: t => if Ascii.eqb c "]" then ([c], t) else ([], l1)
    | [] => ([], l1)
    end in
  option_map (fun s => bang ++ brk ++ s)%list (until_close l2).

(** A hyphen between two characters makes a range; the first and the
    last character of the text are never range operators. *)
Fixpoint items_of (l : list ascii) : list item :=
  match l with
  | [] => []
  | lo :: l1 =>
      match l1 with
      | h :: hi :: l2 =>
          if Ascii.eqb h "-" then Range lo hi :: items_of l2
          else One lo :: items_of l1
      | _ => One lo :: items_of l1
      end
  end.

Definition class_of (text : list ascii) : tok :=
  match text with
  | c :: t => if Ascii.eqb c "!" then Class true (items_of t)
              else Class false (items_of text)
  | [] => Class false []
  end.

(** [skip] counts the characters of a bracket expression still to be
    passed over. *)
Fixpoint toks (skip : nat) (pat : list ascii) : list tok :=
  match pat with
  | [] => []
  | c :: pat' =>
      match skip with
      | S k => toks k pat'
      | O =>
          if Ascii.eqb c "*" then Star :: toks 0 pat'
          else if Ascii.eqb c "?" then AnyChar :: toks 0 pat'
          else if Ascii.eqb c "[" then
            match class_text pat' with
            | Some text => class_of text :: toks (S (List.length text)) pat'
            | None => Chr c :: toks 0 pat'
            end
          else Chr c :: toks 0 pat'
      end
  end.

Definition item_matches (c : ascii) (i : item) : bool :=
  match i with
  | One a => Ascii.eqb a c
  | Range lo hi =>
      Nat.leb (nat_of_ascii lo) (nat_of_ascii c)
      && Nat.leb (nat_of_ascii c) (nat_of_ascii hi)
  end.

Fixpoint match_toks (ts : list tok) (s : list ascii) : bool :=
  match ts with
  | [] => match s with [] => true | _ => false end
  | Star :: ts' =>
      (fix star (s : list ascii) : bool :=
         match_toks ts' s ||
         match s with
         | [] => false
         | _ :: s' => star s'
         end) s
  | AnyChar :: ts' =>
      match s with
      | _ :: s' => match_toks ts' s'
      | [] => false
      end
  | Chr c :: ts' =>
      match s with
      | a :: s' => Ascii.eqb a c && match_toks ts' s'
      | [] => false
      end
  | Class negated items :: ts' =>
      match s with
      | a :: s' =>
          xorb negated (existsb (item_matches a) items) && match_toks ts' s'
      | [] => false
      end
  end.

(** [fnmatch.fnmatch(name, pat)]; [os.path.normcase] is the identity on
    POSIX, so the match is case-sensitive and covers the whole name. *)
Definition fnmatch (name pat : string) : bool :=
  match_toks (toks 0 (Str.chars pat)) (Str.chars name).

End Fnmatch.

(** ** Outcomes of a call *)

(** The Python exceptions the modelled operations can raise. *)
Inductive exn : Type :=
| FileNotFoundError
| FileExistsError
| NotADirectoryError
| IsADirectoryError
| PermissionError
| SameFileError.

(** A call returns a value, leaves through [sys.exit(status)], or
    propagates an exception. *)
Inductive result (A : Type) : Type :=
| Ok (a : A)
| Exited (status : Z)
| Raised (e : exn).
Arguments Ok {A} a.
Arguments Exited {A} status.
Arguments Raised {A} e.

(** ** The file system *)

Module FS.

(** A regular file with its contents, or a directory; [writable] says
    whether the process may open the file for writing, respectively
    create entries in the directory. *)
Inductive node : Type :=
| File (writable : bool) (content : string)
| Dir (writable : bool).

(** Nodes are keyed by the components of their absolute path.  The root
    directory, of key [[]], always exists.  There are no symbolic links. *)
Record t : Type := mk {
  entries : list (list string * node);
  cwd : string
}.

Fixpoint key_eqb (a b : list string) : bool :=
  match a, b with
  | [], [] => true
  | x :: a', y :: b' => String.eqb x y && key_eqb a' b'
  | _, _ => false
  end.

Fixpoint assoc (k : list string) (l : list (list string * node))
  : option node :=
  match l with
  | [] => None
  | (k', n) :: l' => if key_eqb k k' then Some n else assoc k l'
  end.

Definition lookup (fs : t) (k : list string) : option node :=
  match assoc k (entries fs) with
  | Some n => Some n
  | None => match k with [] => Some (Dir true) | _ => None end
  end.

Definition is_dir_node (o : option node) : bool :=
  match o with Some (Dir _) => true | _ => false end.
Definition is_file_node (o : option node) : bool :=
  match o with Some (File _ _) => true | _ => false end.

(** Path resolution as the kernel does it: every component, the empty
    one and the dots included, is looked up in a directory that exists. *)
Fixpoint walk (fs : t) (cur : list string) (comps : list string)
  : option (list string) :=
  match comps with
  | [] => Some cur
  | c :: rest =>
      if is_dir_node (lookup fs cur) then
        if Str.is_empty c || String.eqb c "." then walk fs cur rest
        else if String.eqb c ".." then walk fs (removelast cur) rest
        else walk fs (cur ++ [c]) rest
      else None
  end.

Definition resolve (fs : t) (p : string) : option (list string) :=
  if Str.is_empty p then None
  else if PosixPath.isabs p then walk fs [] (Str.split PosixPath.sep p)
  else match walk fs [] (Str.split PosixPath.sep (cwd fs)) with
       | Some c => walk fs c (Str.split PosixPath.sep p)
       | None => None
       end.

(** [os.stat(p)], [None] when it fails. *)
Definition stat (fs : t) (p : string) : option node :=
  match resolve fs p with
  | Some k => lookup fs k
  | None => None
  end.

Definition isfile (fs : t) (p : string) : bool := is_file_node (stat fs p).
Definition isdir (fs : t) (p : string) : bool := is_dir_node (stat fs p).
Definition lexists (fs : t) (p : string) : bool :=
  match stat fs p with Some _ => true | None => false end.

(** The names in the directory of key [k], in the order of the entries. *)
Definition children (fs : t) (k : list string) : list string :=
  flat_map
    (fun e : list string * node =>
       match rev (fst e) with
       | name :: parent => if key_eqb (rev parent) k then [name] else []
       | [] => []
       end)
    (entries fs).

(** [os.listdir(p)], empty when [p] is not a directory. *)
Definition listdir (fs : t) (p : string) : list string :=
  match resolve fs p with
  | Some k => if is_dir_node (lookup fs k) then children fs k else []
  | None => []
  end.

Definition remove_key (k : list string) (l : list (list string * node))
  : list (list string * node) :=
  filter (fun e : list string * node => negb (key_eqb (fst e) k)) l.

Definition put (fs : t) (k : list string) (n : node) : t :=
  mk (remove_key k (entries fs) ++ [(k, n)]) (cwd fs).

Definition dir_writable (fs : t) (k : list string) : bool :=
  match lookup fs k with Some (Dir w) => w | _ => false end.

(** Creation of the directories along [comps] below [cur]. *)
Fixpoint mkdirs (fs : t) (cur : list string) (comps : list string)
  : result t :=
  match comps with
  | [] => Ok fs
  | c :: rest =>
      if Str.is_empty c || String.eqb c "." then mkdirs fs cur rest
      else if String.eqb c ".." then mkdirs fs (removelast cur) rest
      else
        let k := (cur ++ [c])%list in
        match lookup fs k with
        | Some (Dir _) => mkdirs fs k rest
        | Some (File _ _) =>
            Raised (match rest with
                    | [] => FileExistsError
                    | _ => NotADirectoryError
                    end)
        | None =>
            if dir_writable fs cur then mkdirs (put fs k (Dir true)) k rest
            else Raised PermissionError
        end
  end.

(** [os.makedirs(p, exist_ok=True)] *)
Definition makedirs (fs : t) (p : string) : result t :=
  if Str.is_empty p then Raised FileNotFoundError
  else if PosixPath.isabs p then mkdirs fs [] (Str.split PosixPath.sep p)
  else match walk fs [] (Str.split PosixPath.sep (cwd fs)) with
       | Some c => mkdirs fs c (Str.split PosixPath.sep p)
       | None => Raised FileNotFoundError
       end.

(** Opening [p] for writing.  [truncate] distinguishes mode [w] from mode
    [a]; a missing file is created empty. *)
Definition open_for_write (truncate : bool) (fs : t) (p : string)
  : result t :=
  match resolve fs p with
  | None => Raised FileNotFoundError
  | Some k =>
      match lookup fs k with
      | Some (Dir _) => Raised IsADirectoryError
      | Some (File w c) =>
          if w then Ok (if truncate then put fs k (File w "") else fs)
          else Raised PermissionError
      | None =>
          if is_dir_node (lookup fs (removelast k)) then
            if dir_writable fs (removelast k)
            then Ok (put fs k (File true ""))
            else Raised PermissionError
          else Raised FileNotFoundError
      end
  end.

(** [open(p, 'a').close()] *)
Definition open_append (fs : t) (p : string) : result t :=
  open_for_write false fs p.

(** [shutil.copy2(src, dst)]: contents and mode of [src] go to [dst], or
    into [dst] under the base name of [src] when [dst] is a directory. *)
Definition copy2 (fs : t) (src dst : string) : result t :=
  let dst := if isdir fs dst
             then PosixPath.join dst (PosixPath.basename src) else dst in
  match resolve fs src, stat fs src with
  | Some ks, Some (File w content) =>
      match resolve fs dst with
      | Some kd =>
          if key_eqb ks kd then Raised SameFileError
          else match open_for_write true fs dst with
               | Ok fs' => Ok (put fs' kd (File w content))
               | Exited n => Exited n
               | Raised e => Raised e
               end
      | None => Raised FileNotFoundError
      end
  | _, Some (Dir _) => Raised IsADirectoryError
  | _, _ => Raised FileNotFoundError
  end.

(** [shutil.rmtree(p, ignore_errors=True)]: the tree at [p] goes, and a
    failure is silent.  Removal inside the tree is taken to succeed. *)
Definition rmtree (fs : t) (p : string) : t :=
  match resolve fs p with
  | Some k =>
      if is_dir_node (lookup fs k) then
        mk (filter
              (fun e : list string * node =>
                 negb (key_eqb (firstn (List.length k) (fst e)) k))
              (entries fs))
           (cwd fs)
      else fs
  | None => fs
  end.

End FS.

(** ** [glob] *)

Module Glob.

(** [glob.has_magic(s)] *)
Definition has_magic (s : string) : bool :=
  Str.has_char "*" s || Str.has_char "?" s || Str.has_char "[" s.

Definition ishidden (s : string) : bool := Str.startswith s ".".

Definition isrecursive (pattern : string) : bool := String.eqb pattern "**".

(** [_glob0]: a literal last component. *)
Definition glob0 (fs : FS.t) (dirname basename : string) : list string :=
  if Str.is_empty basename then
    if FS.isdir fs dirname then [basename] else []
  else
    if FS.lexists fs (PosixPath.join dirname basename) then [basename]
    else [].

(** [_glob1]: the names of one directory that match the pattern; hidden
    names only for a pattern that starts with a dot. *)
Definition glob1 (fs : FS.t) (dirname pattern : string) : list string :=
  let names :=
    FS.listdir fs (if Str.is_empty dirname then PosixPath.curdir else dirname) in
  let names :=
    if ishidden pattern then names
    else filter (fun x => negb (ishidden x)) names in
  filter (fun x => Fnmatch.fnmatch x pattern) names.

(** The proper prefixes of [rel], shortest first, each appended to [k]. *)
Definition between (k rel : list string) : list (list string) :=
  map (fun n => (k ++ firstn n rel)%list) (seq 1 (List.length rel - 1)).

(** [_rlistdir]: every path below the directory, relative to it, that is
    reached through directories and has no hidden component. *)
Definition rlistdir (fs : FS.t) (dirname : string) : list string :=
  match FS.resolve fs (if Str.is_empty dirname then PosixPath.curdir else dirname) with
  | Some k =>
      if FS.is_dir_node (FS.lookup fs k) then
        flat_map
          (fun e : list string * FS.node =>
             let rel := skipn (List.length k) (fst e) in
             if FS.key_eqb (firstn (List.length k) (fst e)) k
                && negb (match rel with [] => true | _ => false end)
                && forallb (fun c => negb (ishidden c)) rel
                && forallb (fun d => FS.is_dir_node (FS.lookup fs d)) (between k rel)
             then [String.concat "/" rel] else [])
          (FS.entries fs)
      else []
  | None => []
  end.

(** [_glob2]: the directory itself, as the empty name, and all that is
    below it. *)
Definition glob2 (fs : FS.t) (dirname pattern : string) : list string :=
  ((if Str.is_empty dirname || FS.isdir fs dirname then [""] else [])
   ++ rlistdir fs dirname)%list.

(** [_iglob]; the recursion is on the directory part of the pattern, which
    is shorter than the pattern, and [n] bounds its depth. *)
Fixpoint iglob_rec (n : nat) (fs : FS.t) (recursive : bool)
  (pathname : string) : list string :=
  match n with
  | O => []
  | S n' =>
      let '(dirname, basename) := PosixPath.split pathname in
      if negb (has_magic pathname) then
        if negb (Str.is_empty basename) then
          if FS.lexists fs pathname then [pathname] else []
        else
          if FS.isdir fs dirname then [pathname] else []
      else if Str.is_empty dirname then
        if recursive && isrecursive basename
        then glob2 fs "" basename
        else glob1 fs "" basename
      else
        let dirs :=
          if negb (String.eqb dirname pathname) && has_magic dirname
          then iglob_rec n' fs recursive dirname
          else [dirname] in
        let glob_in_dir :=
          if has_magic basename then
            if recursive && isrecursive basename then glob2 else glob1
          else glob0 in
        flat_map
          (fun d => map (PosixPath.join d) (glob_in_dir fs d basename))
          dirs
  end.

(** [glob.iglob(pathname, recursive=recursive)], as the list of what the
    iterator yields.  An empty first result of a recursive pattern that
    starts with two stars is dropped. *)
Definition iglob (fs : FS.t) (pathname : string) (recursive : bool)
  : list string :=
  let it := iglob_rec (S (String.length pathname)) fs recursive pathname in
  if Str.is_empty pathname || (recursive && isrecursive (Str.take 2 pathname))
  then match it with
       | s :: it' => if Str.is_empty s then it' else it
       | [] => []
       end
  else it.

End Glob.

(** ** Collaborators outside the package manager *)

Module PathHelper.

(** Modelled from the spec: [PathHelper.find_include_paths] is not among
    the sources.  The spec has the resolver treat the search path as a
    folder scan and enumerate the files beneath it, recursively unless
    recursion is disabled. *)
Definition find_include_paths (fs : FS.t) (search_path : string)
  (no_recurse : bool) : list string :=
  filter (FS.isfile fs) (Glob.iglob fs search_path (negb no_recurse)).

End PathHelper.

Module CommandArguments.

(** Modelled from the spec: [CommandArguments] is not among the sources.
    The spec gives the command as its arguments in order, separated by
    single spaces, every path-bearing argument in double quotes. *)
Definition t : Type := list string.

Definition empty : t := [].

Definition append (args : t) (value : string) (enquote_value : bool) : t :=
  (args ++ [if enquote_value then Str.quoted value else value])%list.

Definition join (args : t) : string := String.concat " " args.

End CommandArguments.

(** ** The state of a run and its monad *)

Inductive level : Type := INFO | WARNING | ERROR.

Definition log_record : Type := (level * string)%type.

Inductive compression : Type := ZIP_STORED | ZIP_DEFLATED.

(** A zip container under construction or finished: where it is written,
    its compression and the entries written so far, each with the file it
    was read from. *)
Record zip_file : Type := mkZip {
  zip_path : string;
  zip_compression : compression;
  zip_entries : list (string * string)
}.

(** One run of the external archiver: its command line and the file system
    it ran on, the staging tree as it stood included. *)
Record bsarch_run : Type := mkRun {
  command : string;
  seen : FS.t
}.

(** What a run acts on: the file system, the records sent to the logger,
    the runs of the archiver and the zip containers opened, all in order of
    occurrence. *)
Record world : Type := mkWorld {
  fs : FS.t;
  log : list log_record;
  bsarch_runs : list bsarch_run;
  zips : list zip_file
}.

Definition M (A : Type) : Type := world -> result A * world.

Definition ret {A : Type} (a : A) : M A := fun w => (Ok a, w).

Definition bind {A B : Type} (m : M A) (k : A -> M B) : M B :=
  fun w =>
    match m w with
    | (Ok a, w') => k a w'
    | (Exited n, w') => (Exited n, w')
    | (Raised e, w') => (Raised e, w')
    end.

Notation "x <- m1 ;; m2" := (bind m1 (fun x => m2))
  (at level 61, m1 at next level, right associativity).
Notation "m1 ;; m2" := (bind m1 (fun _ => m2))
  (at level 61, right associativity).

(** [sys.exit(status)] *)
Definition exit {A : Type} (status : Z) : M A := fun w => (Exited status, w).

Definition raise {A : Type} (e : exn) : M A := fun w => (Raised e, w).

Definition get_fs : M FS.t := fun w => (Ok (fs w), w).

Definition set_fs (f : FS.t) : M unit :=
  fun w => (Ok tt, mkWorld f (log w) (bsarch_runs w) (zips w)).

Definition emit (l : level) (msg : string) : M unit :=
  fun w => (Ok tt, mkWorld (fs w) (log w ++ [(l, msg)]) (bsarch_runs w) (zips w)).

Definition emit_all (records : list log_record) : M unit :=
  fun w => (Ok tt, mkWorld (fs w) (log w ++ records) (bsarch_runs w) (zips w)).

(** A file-system operation that may raise. *)
Definition fs_try (op : FS.t -> result FS.t) : M unit :=
  f <- get_fs ;;
  match op f with
  | Ok f' => set_fs f'
  | Exited n => exit n
  | Raised e => raise e
  end.

(** [try: m  except PermissionError: handler] *)
Definition except_PermissionError {A : Type} (m handler : M A) : M A :=
  fun w =>
    match m w with
    | (Raised PermissionError, w') => handler w'
    | r => r
    end.

(** [for x in xs: body(x)] *)
Fixpoint for_each {A : Type} (xs : list A) (body : A -> M unit) : M unit :=
  match xs with
  | [] => ret tt
  | x :: xs' => body x ;; for_each xs' body
  end.

Module ProcessManager.

(** Modelled from the spec: [ProcessManager.run_bsarch] is not among the
    sources.  The archiver is an opaque external process; the spec has the
    call block until it exits and the run go on whatever its exit status.
    The invocation is recorded. *)
Definition run_bsarch (command : string) : M unit :=
  fun w =>
    (Ok tt,
     mkWorld (fs w) (log w) (bsarch_runs w ++ [mkRun command (fs w)]) (zips w)).

End ProcessManager.

(** ** The project descriptor *)

(** A child of a package or zip-file element: its tag, its [NoRecurse]
    attribute when present, and its text. *)
Record include_element : Type := mkInclude {
  inc_tag : string;
  inc_NoRecurse : option string;
  inc_text : string
}.

(** A child of the packages or zip-files element: its tag, its [Name] and
    [RootDir] attributes, its [Compression] attribute when present, and its
    children. *)
Record element : Type := mkElement {
  tag : string;
  Name : string;
  RootDir : string;
  Compression : option string;
  children : list include_element
}.

Record ProjectOptions : Type := mkOptions {
  bsarch_path : string;
  temp_path : string;
  package_path : string;
  zip_output_path : string;
  game_type : string
}.

Record PapyrusProject : Type := mkProject {
  ppj_options : ProjectOptions;
  project_name : string;
  project_path : string;
  packages_node : list element;
  zip_files_node : list element
}.

(** ** [PackageManager] *)

Record PackageManager : Type := mkManager {
  ppj : PapyrusProject;
  options : ProjectOptions;
  pak_extension : string;
  zip_extension : string
}.

Definition __init__ (ppj : PapyrusProject) : PackageManager :=
  mkManager ppj (ppj_options ppj)
    (if String.eqb (game_type (ppj_options ppj)) "fo4" then ".ba2" else ".bsa")
    ".zip".

Definition _check_write_permission (file_path : string) : M unit :=
  f <- get_fs ;;
  if FS.isfile f file_path then
    except_PermissionError
      (fs_try (fun f => FS.open_append f file_path))
      (emit ERROR ("Cannot create file without write permission to: "
                   ++ Str.quoted file_path) ;;
       exit 1%Z)
  else ret tt.

(** The recursive wildcard is spelt with a backslash in the source. *)
Definition wildcard_pattern_of (no_recurse : bool) : string :=
  if no_recurse then "*" else "**\*".

(** Lines 56 to 60 of [_generate_include_paths]: a leading current-directory
    marker is replaced by the root, and the text is normalized. *)
Definition path_or_pattern_of (include_node : include_element)
  (root_path : string) : string :=
  let text :=
    if String.eqb (inc_text include_node) PosixPath.curdir
       || Str.startswith (inc_text include_node) PosixPath.curdir
    then Str.replace1 (inc_text include_node) PosixPath.curdir root_path
    else inc_text include_node in
  PosixPath.normpath text.

(** One round of the loop of [_generate_include_paths]: the warnings logged
    and the paths yielded for one child of [includes_node], read off the
    file system [f].  The reassignment of the text of the node is kept
    local, the node not being read again in the run. *)
Definition include_paths (f : FS.t) (include_node : include_element)
  (root_path : string) : list log_record * list string :=
  if negb (Str.endswith (inc_tag include_node) "Include") then ([], [])
  else
    let no_recurse :=
      match inc_NoRecurse include_node with
      | Some v => String.eqb v "True"
      | None => false
      end in
    let wildcard_pattern := wildcard_pattern_of no_recurse in
    if Str.startswith (inc_text include_node) PosixPath.pardir then
      ([(WARNING, "Include paths cannot start with " ++ Str.quoted PosixPath.pardir)], [])
    else
      let path_or_pattern := path_or_pattern_of include_node root_path in
      let outside :=
        ([(WARNING, "Cannot include path outside RootDir: "
                    ++ Str.quoted path_or_pattern)], []) in
      let scan (search_path : string) :=
        ([], filter
               (fun include_path =>
                  FS.isfile f include_path
                  && Fnmatch.fnmatch include_path path_or_pattern)
               (Glob.iglob f search_path (negb no_recurse))) in
      if Str.has_char "*" path_or_pattern then
        if negb (PosixPath.isabs path_or_pattern) then
          scan (PosixPath.join root_path wildcard_pattern)
        else if Str.contains root_path path_or_pattern then
          scan path_or_pattern
        else outside
      else if PosixPath.isabs path_or_pattern then
        if negb (Str.contains root_path path_or_pattern) then outside
        else if FS.isfile f path_or_pattern then ([], [path_or_pattern])
        else
          let search_path := PosixPath.join path_or_pattern wildcard_pattern in
          ([], PathHelper.find_include_paths f search_path no_recurse)
      else
        let test_path := PosixPath.join root_path path_or_pattern in
        if negb (FS.isdir f test_path) then ([], [test_path])
        else
          let search_path :=
            PosixPath.join3 root_path path_or_pattern wildcard_pattern in
          ([], PathHelper.find_include_paths f search_path no_recurse).

(** [_generate_include_paths] on an unchanging file system: everything it
    logs and everything it yields, in order. *)
Definition _generate_include_paths (f : FS.t)
  (includes_node : list include_element) (root_path : string)
  : list log_record * list string :=
  (flat_map (fun n => fst (include_paths f n root_path)) includes_node,
   flat_map (fun n => snd (include_paths f n root_path)) includes_node).

(** [for p in _generate_include_paths(includes_node, root_path): body(p)].
    The generator is lazy and interleaves with the body; each child is
    resolved on the file system as the bodies run so far have left it. *)
Definition for_include_paths (includes_node : list include_element)
  (root_path : string) (body : string -> M unit) : M unit :=
  for_each includes_node
    (fun include_node =>
       f <- get_fs ;;
       let '(warnings, paths) := include_paths f include_node root_path in
       emit_all warnings ;;
       for_each paths body).

Definition _fix_package_extension (self : PackageManager)
  (package_name : string) : string :=
  if negb (Str.endswith (Str.casefold package_name) ".ba2"
           || Str.endswith (Str.casefold package_name) ".bsa")
  then package_name ++ pak_extension self
  else fst (PosixPath.splitext package_name) ++ pak_extension self.

Definition _fix_zip_extension (self : PackageManager) (zip_name : string)
  : string :=
  if negb (Str.endswith (Str.casefold zip_name) ".zip")
  then zip_name ++ zip_extension self
  else fst (PosixPath.splitext zip_name) ++ zip_extension self.

Definition build_commands (self : PackageManager)
  (containing_folder output_path : string) : string :=
  let arguments := CommandArguments.empty in
  let arguments := CommandArguments.append arguments (bsarch_path (options self)) true in
  let arguments := CommandArguments.append arguments "pack" false in
  let arguments := CommandArguments.append arguments containing_folder true in
  let arguments := CommandArguments.append arguments output_path true in
  let arguments :=
    if String.eqb (game_type (options self)) "fo4"
    then CommandArguments.append arguments "-fo4" false
    else if String.eqb (game_type (options self)) "sse"
    then CommandArguments.append arguments "-sse" false
    else CommandArguments.append arguments "-tes5" false in
  CommandArguments.join arguments.

(** [str(i)] *)
Definition str_of_nat (i : nat) : string :=
  NilEmpty.string_of_uint (Nat.to_uint i).

(** The name a package is written under, before its extension is fixed, and
    the names taken once it is: lines 144 to 151 of [create_packages]. *)
Definition package_file_name (self : PackageManager) (i : nat)
  (package_node : element) (package_names : list string)
  : string * list string :=
  let file_name := Name package_node in
  let file_name :=
    if Str.mem (Str.casefold file_name) package_names
    then project_name (ppj self) ++ " (" ++ str_of_nat i ++ ")"
    else file_name in
  let package_names :=
    if negb (Str.mem (Str.casefold file_name) package_names)
    then (package_names ++ [Str.casefold file_name])%list
    else package_names in
  (file_name, package_names).

(** The body of the inner loop of [create_packages]. *)
Definition stage (self : PackageManager) (package_node : element)
  (source_path : string) : M unit :=
  emit INFO ("+ " ++ Str.quoted source_path) ;;
  f <- get_fs ;;
  let relpath := PosixPath.relpath (FS.cwd f) source_path (RootDir package_node) in
  let target_path := PosixPath.join (temp_path (options self)) relpath in
  let target_path :=
    if Str.endswith (Str.casefold source_path) ".pex"
       && negb (Str.startswith (Str.casefold relpath) "scripts")
    then PosixPath.join3 (temp_path (options self)) "Scripts" relpath
    else target_path in
  fs_try (fun f => FS.makedirs f (PosixPath.dirname target_path)) ;;
  fs_try (fun f => FS.copy2 f source_path target_path).

(** The file system once the staging tree, when it is there, is removed. *)
Definition cleared (f : FS.t) (temp_path : string) : FS.t :=
  if FS.isdir f temp_path then FS.rmtree f temp_path else f.

(** [if os.path.isdir(temp_path): shutil.rmtree(temp_path, ignore_errors=True)] *)
Definition clear_temporary_data (self : PackageManager) : M unit :=
  f <- get_fs ;;
  set_fs (cleared f (temp_path (options self))).

(** The loop of [create_packages] from index [i] on. *)
Fixpoint create_packages_loop (self : PackageManager) (i : nat)
  (nodes : list element) (package_names : list string) : M unit :=
  match nodes with
  | [] => ret tt
  | package_node :: rest =>
      if negb (Str.endswith (tag package_node) "Package") then
        create_packages_loop self (S i) rest package_names
      else
        let '(file_name, package_names) :=
          package_file_name self i package_node package_names in
        let file_name := _fix_package_extension self file_name in
        let file_path := PosixPath.join (package_path (options self)) file_name in
        _check_write_permission file_path ;;
        emit INFO ("Creating " ++ Str.quoted file_name ++ "...") ;;
        for_include_paths (children package_node) (RootDir package_node)
          (stage self package_node) ;;
        let command := build_commands self (temp_path (options self)) file_path in
        ProcessManager.run_bsarch command ;;
        clear_temporary_data self ;;
        create_packages_loop self (S i) rest package_names
  end.

Definition create_packages (self : PackageManager) : M unit :=
  clear_temporary_data self ;;
  (f <- get_fs ;;
   if negb (FS.isdir f (package_path (options self)))
   then fs_try (fun f => FS.makedirs f (package_path (options self)))
   else ret tt) ;;
  create_packages_loop self 0 (packages_node (ppj self)) [].

(** [zipfile.ZipFile(file_path, mode='w', compression=compress_type)]: the
    file is created or truncated and a container with no entry begins. *)
Definition zip_open (file_path : string) (compress_type : compression)
  : M unit :=
  fs_try (fun f => FS.open_for_write true f file_path) ;;
  fun w =>
    (Ok tt,
     mkWorld (fs w) (log w) (bsarch_runs w)
       (zips w ++ [mkZip file_path compress_type []])).

Fixpoint add_entry (entry : string * string) (zs : list zip_file)
  : list zip_file :=
  match zs with
  | [] => []
  | [z] => [mkZip (zip_path z) (zip_compression z) (zip_entries z ++ [entry])]
  | z :: zs' => z :: add_entry entry zs'
  end.

(** The entry name [ZipInfo.from_file] gives to [arcname]. *)
Definition zip_arcname (arcname : string) (is_dir : bool) : string :=
  Str.of_chars
    (Str.lstrip_chars PosixPath.sep (Str.chars (PosixPath.normpath arcname)))
  ++ (if is_dir then "/" else "").

(** [z.write(include_path, arcname)] on the container opened last. *)
Definition zip_write (include_path arcname : string) : M unit :=
  f <- get_fs ;;
  match FS.stat f include_path with
  | None => raise FileNotFoundError
  | Some n =>
      fun w =>
        (Ok tt,
         mkWorld (fs w) (log w) (bsarch_runs w)
           (add_entry
              (zip_arcname arcname (FS.is_dir_node (Some n)), include_path)
              (zips w)))
  end.

(** The name a zip file is written under, before its extension is fixed, and
    the names taken once it is: lines 193 to 200 of [create_zip]. *)
Definition zip_file_name (i : nat) (zip_node : element)
  (zip_names : list string) : string * list string :=
  let file_name := Name zip_node in
  let file_name :=
    if Str.mem (Str.casefold file_name) zip_names
    then file_name ++ " (" ++ str_of_nat i ++ ")"
    else file_name in
  let zip_names :=
    if negb (Str.mem (Str.casefold file_name) zip_names)
    then (zip_names ++ [Str.casefold file_name])%list
    else zip_names in
  (file_name, zip_names).

(** Lines 214 to 222 of [create_zip]: a relative [RootDir] is resolved
    against the project path, and the run ends when that is no folder. *)
Definition resolve_zip_root (self : PackageManager) (zip_root_path : string)
  : M string :=
  if negb (PosixPath.isabs zip_root_path) then
    let test_path :=
      PosixPath.normpath (PosixPath.join (project_path (ppj self)) zip_root_path) in
    f <- get_fs ;;
    if FS.isdir f test_path then ret test_path
    else
      emit ERROR ("Cannot resolve RootDir path to existing folder: "
                  ++ Str.quoted zip_root_path) ;;
      exit 1%Z
  else ret zip_root_path.

(** The body of the inner loop of [create_zip]. *)
Definition add_to_zip (zip_root_path include_path : string) : M unit :=
  emit INFO ("+ " ++ Str.quoted include_path) ;;
  if negb (Str.contains zip_root_path include_path) then
    emit WARNING ("Cannot add file to ZIP outside RootDir: "
                  ++ Str.quoted include_path)
  else
    f <- get_fs ;;
    let arcname := PosixPath.relpath (FS.cwd f) include_path zip_root_path in
    zip_write include_path arcname.

(** The loop of [create_zip] from index [i] on. *)
Fixpoint create_zip_loop (self : PackageManager) (i : nat)
  (nodes : list element) (zip_names : list string) : M unit :=
  match nodes with
  | [] => ret tt
  | zip_node :: rest =>
      if negb (Str.endswith (tag zip_node) "ZipFile") then
        create_zip_loop self (S i) rest zip_names
      else
        let '(file_name, zip_names) := zip_file_name i zip_node zip_names in
        let file_name := _fix_zip_extension self file_name in
        let file_path := PosixPath.join (zip_output_path (options self)) file_name in
        _check_write_permission file_path ;;
        let compress_type :=
          match Compression zip_node with
          | Some c => if String.eqb c "store" then ZIP_STORED else ZIP_DEFLATED
          | None => ZIP_DEFLATED
          end in
        emit INFO ("Creating " ++ Str.quoted file_name ++ "...") ;;
        zip_root_path <- resolve_zip_root self (RootDir zip_node) ;;
        except_PermissionError
          (zip_open file_path compress_type ;;
           for_include_paths (children zip_node) zip_root_path
             (add_to_zip zip_root_path) ;;
           emit INFO ("Wrote ZIP file: " ++ Str.quoted file_path))
          (emit ERROR ("Cannot open ZIP file for writing: "
                       ++ Str.quoted file_path) ;;
           exit 1%Z) ;;
        create_zip_loop self (S i) rest zip_names
  end.

(** Lines 183 to 185 of [create_zip]: the zip output folder is made when
    it is not there. *)
Definition ensure_zip_output_path (self : PackageManager) : M unit :=
  f <- get_fs ;;
  if negb (FS.isdir f (zip_output_path (options self)))
  then fs_try (fun f => FS.makedirs f (zip_output_path (options self)))
  else ret tt.

Definition create_zip (self : PackageManager) : M unit :=
  ensure_zip_output_path self ;;
  create_zip_loop self 0 (zip_files_node (ppj self)) [].



(** ** A project tree used in the examples *)

Definition fs_demo : FS.t :=
  FS.mk [ (["proj"], FS.Dir true);
          (["proj"; "src"], FS.Dir true);
          (["proj"; "src"; "Scripts"], FS.Dir true);
          (["proj"; "src"; "Scripts"; "a.pex"], FS.File true "A");
          (["proj"; "src"; "Scripts"; "b.pex"], FS.File true "B");
          (["proj"; "src"; "Scripts"; "c.txt"], FS.File true "C");
          (["proj"; "src"; "top.pex"], FS.File true "T");
          (["proj"; "src"; ".hid"], FS.File true "H");
          (["proj"; "src2"], FS.Dir true);
          (["proj"; "src2"; "x"], FS.File true "X") ] "/proj".

(** ** Notions the properties are stated with *)

(** Containment by path components: the components of [root], made
    absolute and normalized, begin those of [p]. *)
Definition lies_under (cwd root p : string) : bool :=
  let r := PosixPath.nonempty_comps (PosixPath.abspath cwd root) in
  let q := PosixPath.nonempty_comps (PosixPath.abspath cwd p) in
  FS.key_eqb (firstn (List.length r) q) r.

(** A parent-directory segment among the components of a path. *)
Definition has_pardir_segment (p : string) : bool :=
  existsb (String.eqb PosixPath.pardir) (Str.split PosixPath.sep p).

(** ** Projects over the example tree *)

Definition demo_world : world := mkWorld fs_demo [] [] [].

Definition demo_options (game : string) : ProjectOptions :=
  mkOptions "/tools/bsarch" "/proj/tmp" "/proj/out" "/proj/zip" game.

Definition demo_manager (game : string) (packages zip_files : list element)
  : PackageManager :=
  __init__ (mkProject (demo_options game) "Bar" "/proj" packages zip_files).

Definition package_of (name root : string) (includes : list include_element)
  : element :=
  mkElement "Package" name root None includes.

Definition zip_of (name root : string) (includes : list include_element)
  : element :=
  mkElement "ZipFile" name root (Some "store") includes.

Definition include_of (text : string) : include_element :=
  mkInclude "Include" None text.

Definition include_no_recurse (text : string) : include_element :=
  mkInclude "Include" (Some "True") text.

(** The example tree with the package output folder in place. *)
Definition fs_with_out : FS.t := FS.put fs_demo ["proj"; "out"] (FS.Dir true).

(** ** What a run leaves alone *)

(** The number of elements whose tag ends with [suffix]. *)
Definition count_tagged (suffix : string) (nodes : list element) : nat :=
  List.length (filter (fun n => Str.endswith (tag n) suffix) nodes).

(** An action keeps an observation of the world when the observation reads
    the same after the action as before, whatever the outcome. *)
Definition keeps {A X : Type} (obs : world -> X) (m : M A) : Prop :=
  forall w, obs (snd (m w)) = obs w.

(** The archiver runs and the zip containers of a world. *)
Definition records (w : world) : list bsarch_run * list zip_file :=
  (bsarch_runs w, zips w).

(** The outcome [rw] of an action started in [w] has left the zip
    containers alone and added at most [c] archiver runs, exactly [c] on a
    normal return. *)
Definition runs_appended (w : world) (c : nat) (rw : result unit * world)
  : Prop :=
  zips (snd rw) = zips w
  /\ exists new,
       bsarch_runs (snd rw) = (bsarch_runs w ++ new)%list
       /\ List.length new <= c
       /\ (fst rw = Ok tt -> List.length new = c).

(** The archiver runs of a world and the paths of its zip containers. *)
Definition opened (w : world) : list bsarch_run * list string :=
  (bsarch_runs w, map zip_path (zips w)).

(** The outcome [rw] of an action started in [w] has left the archiver
    runs alone and opened at most [c] zip containers, exactly [c] on a
    normal return. *)
Definition zips_opened (w : world) (c : nat) (rw : result unit * world)
  : Prop :=
  bsarch_runs (snd rw) = bsarch_runs w
  /\ exists new,
       map zip_path (zips (snd rw)) = (map zip_path (zips w) ++ new)%list
       /\ List.length new <= c
       /\ (fst rw = Ok tt -> List.length new = c).

(** * Properties *)

(** ** The library models on concrete inputs *)


Example normpath_ex1 : PosixPath.normpath "a/../../x" = "../x".
Proof. reflexivity. Qed.
Example normpath_ex2 : PosixPath.normpath "/proj/src/../x//y/." = "/proj/x/y".
Proof. reflexivity. Qed.
Example splitext_ex1 : PosixPath.splitext "Foo.BSA" = ("Foo", ".BSA").
Proof. reflexivity. Qed.
Example splitext_ex2 : PosixPath.splitext ".bsa" = (".bsa", "").
Proof. reflexivity. Qed.
Example splitext_ex3 : PosixPath.splitext "a.b/c" = ("a.b/c", "").
Proof. reflexivity. Qed.
Example split_ex1 : PosixPath.split "/proj/src/*" = ("/proj/src", "*").
Proof. reflexivity. Qed.
Example split_ex2 : PosixPath.split "/" = ("/", "").
Proof. reflexivity. Qed.
Example relpath_ex1 : PosixPath.relpath "/" "/proj/src2/x" "/proj/src" = "../src2/x".
Proof. reflexivity. Qed.
Example relpath_ex2 : PosixPath.relpath "/" "/proj/src/Scripts/a.pex" "/proj/src" = "Scripts/a.pex".
Proof. reflexivity. Qed.
Example fnmatch_ex1 : Fnmatch.fnmatch "/proj/src/a.pex" "*.pex" = true.
Proof. reflexivity. Qed.
Example fnmatch_ex2 : Fnmatch.fnmatch "/proj/src/Scripts/a.pex" "Scripts/*.pex" = false.
Proof. reflexivity. Qed.
Example fnmatch_ex3 : Fnmatch.fnmatch "a7]x" "[a-c][!a-z][]]?" = true.
Proof. reflexivity. Qed.
Example fnmatch_ex4 : Fnmatch.fnmatch "[a" "[a" = true.
Proof. reflexivity. Qed.
Example fnmatch_ex5 : Fnmatch.fnmatch "-" "[a-]" = true.
Proof. reflexivity. Qed.
Example fnmatch_ex6 : Fnmatch.fnmatch "b" "[a-c-e]" = true /\ Fnmatch.fnmatch "d" "[a-c-e]" = false /\ Fnmatch.fnmatch "-" "[a-c-e]" = true.
Proof. repeat split; reflexivity. Qed.

Example glob_ex1 : Glob.iglob fs_demo "/proj/src/*" false = ["/proj/src/Scripts"; "/proj/src/top.pex"].
Proof. reflexivity. Qed.
Example glob_ex2 : Glob.iglob fs_demo "/proj/*/*/*.pex" false = ["/proj/src/Scripts/a.pex"; "/proj/src/Scripts/b.pex"].
Proof. reflexivity. Qed.
Example glob_ex3 : Glob.iglob fs_demo "src/**" true = ["src/"; "src/Scripts"; "src/Scripts/a.pex"; "src/Scripts/b.pex"; "src/Scripts/c.txt"; "src/top.pex"].
Proof. reflexivity. Qed.
Example glob_ex4 : Glob.iglob fs_demo "**/*.pex" true = ["src/top.pex"; "src/Scripts/a.pex"; "src/Scripts/b.pex"].
Proof. vm_compute. reflexivity. Qed.

(** ** The write-permission check *)

Lemma isfile_open_append (f : FS.t) (p : string) :
  FS.isfile f p = true ->
  FS.open_append f p = Ok f \/ FS.open_append f p = Raised PermissionError.
Proof.
  unfold FS.isfile, FS.stat, FS.open_append, FS.open_for_write.
  destruct (FS.resolve f p) as [k|]; [|discriminate].
  destruct (FS.lookup f k) as [[w c|w]|]; simpl; try discriminate.
  intros _. destruct w; auto.
Qed.

(** C9.  [_check_write_permission] returns normally, leaving everything as
    it was, for every path that names no existing file, whatever the
    directory it lies in; it leaves through [sys.exit] only with status 1,
    and only for an existing file whose opening for appending is refused,
    in which case it always does so. *)
Theorem check_write_permission_exit_only_on_refused_file
  (file_path : string) (w : world) :
  (FS.isfile (fs w) file_path = false ->
   _check_write_permission file_path w = (Ok tt, w))
  /\ (forall n w',
        _check_write_permission file_path w = (Exited n, w') ->
        n = 1%Z
        /\ FS.isfile (fs w) file_path = true
        /\ FS.open_append (fs w) file_path = Raised PermissionError)
  /\ (FS.isfile (fs w) file_path = true ->
      FS.open_append (fs w) file_path = Raised PermissionError ->
      fst (_check_write_permission file_path w) = Exited 1%Z).
Proof.
  unfold _check_write_permission, bind, get_fs.
  destruct (FS.isfile (fs w) file_path) eqn:Hfile.
  - split; [discriminate|].
    destruct (isfile_open_append _ _ Hfile) as [Hop|Hop];
      unfold except_PermissionError, fs_try, bind, get_fs;
      rewrite Hop; simpl.
    + split; [intros n w' H; inversion H | intros _ H; discriminate].
    + split; [intros n w' H; inversion H; auto | reflexivity].
  - split; [reflexivity|].
    split; [intros n w' H; inversion H | discriminate].
Qed.

(** The check on an output path in a directory that does not exist. *)
Lemma check_write_permission_witness :
  _check_write_permission "/proj/nowhere/deep/Foo.bsa" demo_world
  = (Ok tt, demo_world).
Proof.
  apply (proj1 (check_write_permission_exit_only_on_refused_file
                  "/proj/nowhere/deep/Foo.bsa" demo_world)).
  reflexivity.
Defined.

(** ** The include resolver *)

(** The resolver on a single include: its log and its yield are those of
    the one round. *)
Lemma generate_include_paths_single (f : FS.t) (n : include_element)
  (root_path : string) :
  _generate_include_paths f [n] root_path = include_paths f n root_path.
Proof.
  unfold _generate_include_paths. simpl. rewrite !app_nil_r.
  destruct (include_paths f n root_path); reflexivity.
Qed.

(** C1, at a failing input.  With root [/proj/src], the include
    [/proj/src2/x] names a file of the sibling directory [/proj/src2]; the
    substring test of the resolver lets it through, and the path it yields
    does not lie under the root. *)
Theorem resolver_yields_sibling_directory_file :
  _generate_include_paths fs_demo [include_of "/proj/src2/x"] "/proj/src"
  = ([], ["/proj/src2/x"])
  /\ lies_under (FS.cwd fs_demo) "/proj/src" "/proj/src2/x" = false
  /\ Str.contains "/proj/src" "/proj/src2/x" = true.
Proof. repeat split; vm_compute; reflexivity. Qed.

(** C4, refuted as stated.  The include [a/../../x] resolves, relative to
    the root, to [../x]; both its text and its normalized form have a
    parent-directory segment, yet the resolver yields a path, outside the
    root, and logs nothing. *)
Lemma parent_segment_inside_is_not_rejected :
  has_pardir_segment "a/../../x" = true
  /\ has_pardir_segment (path_or_pattern_of (include_of "a/../../x") "/proj/src") = true
  /\ _generate_include_paths fs_demo [include_of "a/../../x"] "/proj/src"
     = ([], ["/proj/src/../x"]).
Proof. repeat split; vm_compute; reflexivity. Qed.

(** C4, amended.  An include whose text begins with the parent-directory
    marker yields no path and logs exactly one warning. *)
Theorem leading_pardir_is_rejected_with_one_warning (f : FS.t)
  (include_node : include_element) (root_path : string) :
  Str.endswith (inc_tag include_node) "Include" = true ->
  Str.startswith (inc_text include_node) PosixPath.pardir = true ->
  _generate_include_paths f [include_node] root_path
  = ([(WARNING, "Include paths cannot start with " ++ Str.quoted "..")], []).
Proof.
  intros Htag Hpar. rewrite generate_include_paths_single.
  unfold include_paths. rewrite Htag, Hpar. reflexivity.
Qed.

(** An include that climbs out of the root from its first segment. *)
Lemma leading_pardir_witness :
  _generate_include_paths fs_demo [include_of "../src2/x"] "/proj/src"
  = ([(WARNING, "Include paths cannot start with " ++ Str.quoted "..")], []).
Proof.
  apply (leading_pardir_is_rejected_with_one_warning
           fs_demo (include_of "../src2/x") "/proj/src"); reflexivity.
Defined.

(** C5, refuted as stated.  The include [../x] has no star and is relative
    once normalized, and its join with the root is no existing directory;
    yet the guard of line 52 turns it away: the resolver yields no path and
    logs one warning.  This holds with the normalized text read as the
    normalization of the text itself, at the root [/proj/src], and with it
    read as the value the code computes at line 60, at the relative root
    [src]. *)
Lemma leading_pardir_relative_include_is_not_yielded :
  (Str.has_char "*" (PosixPath.normpath "../x") = false
   /\ PosixPath.isabs (PosixPath.normpath "../x") = false
   /\ FS.isdir fs_demo (PosixPath.join "/proj/src" (PosixPath.normpath "../x"))
      = false
   /\ _generate_include_paths fs_demo [include_of "../x"] "/proj/src"
      = ([(WARNING, "Include paths cannot start with " ++ Str.quoted "..")], []))
  /\ (Str.has_char "*" (path_or_pattern_of (include_of "../x") "src") = false
      /\ PosixPath.isabs (path_or_pattern_of (include_of "../x") "src") = false
      /\ FS.isdir fs_demo
           (PosixPath.join "src" (path_or_pattern_of (include_of "../x") "src"))
         = false
      /\ _generate_include_paths fs_demo [include_of "../x"] "src"
         = ([(WARNING, "Include paths cannot start with " ++ Str.quoted "..")],
            [])).
Proof. repeat split; vm_compute; reflexivity. Qed.

(** C5, amended.  For an include whose text does not begin with the
    parent-directory marker, so that it reaches the normalization of line
    60, whose normalized text has no star and is relative, and whose join
    with the root is not an existing directory, the resolver yields the
    joined path and nothing else, and logs nothing; whether a file exists
    there plays no part. *)
Theorem relative_non_directory_yields_joined_path (f : FS.t)
  (include_node : include_element) (root_path : string) :
  Str.endswith (inc_tag include_node) "Include" = true ->
  Str.startswith (inc_text include_node) PosixPath.pardir = false ->
  Str.has_char "*" (path_or_pattern_of include_node root_path) = false ->
  PosixPath.isabs (path_or_pattern_of include_node root_path) = false ->
  FS.isdir f (PosixPath.join root_path (path_or_pattern_of include_node root_path))
  = false ->
  _generate_include_paths f [include_node] root_path
  = ([], [PosixPath.join root_path (path_or_pattern_of include_node root_path)]).
Proof.
  intros Htag Hpar Hstar Habs Hdir. rewrite generate_include_paths_single.
  unfold include_paths. rewrite Htag, Hpar. simpl.
  rewrite Hstar, Habs. simpl. rewrite Hdir. reflexivity.
Qed.

(** A relative include that names no file at all is yielded all the same. *)
Lemma relative_non_directory_witness :
  FS.isfile fs_demo "/proj/src/Scripts/missing.pex" = false
  /\ _generate_include_paths fs_demo [include_of "Scripts/missing.pex"] "/proj/src"
     = ([], ["/proj/src/Scripts/missing.pex"]).
Proof.
  split; [reflexivity|].
  apply (relative_non_directory_yields_joined_path
           fs_demo (include_of "Scripts/missing.pex") "/proj/src");
    reflexivity.
Defined.

(** ** Output names *)

(** C3, at a failing input.  In a project named [Bar], the second of two
    packages named [Foo] is written under the project name with the index,
    not under its own name: the name before extension fixing is [Bar (1)],
    and the archiver is handed [Bar (1).bsa].  The zip-file loop, on the same
    names, appends the index to the declared name. *)
Theorem second_package_takes_project_name :
  let foo := package_of "Foo" "/proj/src" [] in
  let self := demo_manager "tesv" [foo; foo] [] in
  package_file_name self 0 foo [] = ("Foo", ["foo"])
  /\ package_file_name self 1 foo ["foo"] = ("Bar (1)", ["foo"; "bar (1)"])
  /\ map command (bsarch_runs (snd (create_packages self demo_world)))
     = [ Str.quoted "/tools/bsarch" ++ " pack " ++ Str.quoted "/proj/tmp"
         ++ " " ++ Str.quoted "/proj/out/Foo.bsa" ++ " -tes5";
         Str.quoted "/tools/bsarch" ++ " pack " ++ Str.quoted "/proj/tmp"
         ++ " " ++ Str.quoted "/proj/out/Bar (1).bsa" ++ " -tes5" ]
  /\ zip_file_name 1 (zip_of "Foo" "/proj/src" []) ["foo"]
     = ("Foo (1)", ["foo"; "foo (1)"]).
Proof. repeat split; vm_compute; reflexivity. Qed.

(** C10.  The names [Foo] and [Foo.bsa] differ once case-folded, so the
    second declaration is not renamed; extension fixing then maps both to
    [Foo.bsa], and the archiver is run twice on the same output path. *)
Theorem distinct_names_same_output_path :
  let first := package_of "Foo" "/proj/src" [] in
  let second := package_of "Foo.bsa" "/proj/src" [] in
  let self := demo_manager "tesv" [first; second] [] in
  Str.casefold "Foo" <> Str.casefold "Foo.bsa"
  /\ package_file_name self 0 first [] = ("Foo", ["foo"])
  /\ package_file_name self 1 second ["foo"] = ("Foo.bsa", ["foo"; "foo.bsa"])
  /\ _fix_package_extension self "Foo" = "Foo.bsa"
  /\ _fix_package_extension self "Foo.bsa" = "Foo.bsa"
  /\ fst (create_packages self demo_world) = Ok tt
  /\ map command (bsarch_runs (snd (create_packages self demo_world)))
     = [ Str.quoted "/tools/bsarch" ++ " pack " ++ Str.quoted "/proj/tmp"
         ++ " " ++ Str.quoted "/proj/out/Foo.bsa" ++ " -tes5";
         Str.quoted "/tools/bsarch" ++ " pack " ++ Str.quoted "/proj/tmp"
         ++ " " ++ Str.quoted "/proj/out/Foo.bsa" ++ " -tes5" ].
Proof.
  repeat split; try (vm_compute; reflexivity).
  vm_compute. discriminate.
Qed.

(** ** Zip files *)

(** C7, at a failing input.  With root [/proj/src], the include
    [/proj/src2/x] resolves to a file that does not lie under the root; the
    substring test of [create_zip] accepts it as it did in the resolver, no
    warning is logged and the file is written to the container, under an
    entry name that climbs out of the root. *)
Theorem zip_takes_sibling_directory_file :
  let self :=
    demo_manager "tesv" []
      [zip_of "Z" "/proj/src" [include_of "/proj/src2/x"]] in
  lies_under (FS.cwd fs_demo) "/proj/src" "/proj/src2/x" = false
  /\ fst (create_zip self demo_world) = Ok tt
  /\ zips (snd (create_zip self demo_world))
     = [mkZip "/proj/zip/Z.zip" ZIP_STORED [("../src2/x", "/proj/src2/x")]]
  /\ log (snd (create_zip self demo_world))
     = [ (INFO, "Creating " ++ Str.quoted "Z.zip" ++ "...");
         (INFO, "+ " ++ Str.quoted "/proj/src2/x");
         (INFO, "Wrote ZIP file: " ++ Str.quoted "/proj/zip/Z.zip") ].
Proof. repeat split; vm_compute; reflexivity. Qed.

(** ** Strings as lists of characters *)

Lemma chars_of_chars (l : list ascii) : Str.chars (Str.of_chars l) = l.
Proof. apply list_ascii_of_string_of_list_ascii. Qed.

Lemma of_chars_chars (s : string) : Str.of_chars (Str.chars s) = s.
Proof. apply string_of_list_ascii_of_string. Qed.

Lemma chars_app (a b : string) :
  Str.chars (a ++ b) = (Str.chars a ++ Str.chars b)%list.
Proof. induction a as [|c a IH]; simpl; [reflexivity|]. f_equal. exact IH. Qed.

Lemma of_chars_app (a b : list ascii) :
  Str.of_chars (a ++ b) = Str.of_chars a ++ Str.of_chars b.
Proof. induction a as [|c a IH]; simpl; [reflexivity|]. f_equal. exact IH. Qed.

Lemma length_chars (s : string) : String.length s = List.length (Str.chars s).
Proof. induction s as [|c s IH]; simpl; [reflexivity|]. f_equal. exact IH. Qed.

Lemma prefixb_app (p z : list ascii) : Str.prefixb p (p ++ z) = true.
Proof.
  induction p as [|a p IH]; simpl; [reflexivity|].
  rewrite Ascii.eqb_refl. exact IH.
Qed.

Lemma prefixb_inv (p l : list ascii) :
  Str.prefixb p l = true -> exists z, l = (p ++ z)%list.
Proof.
  revert l. induction p as [|a p IH]; intros l H.
  - exists l. reflexivity.
  - destruct l as [|b l]; simpl in H; [discriminate|].
    apply andb_true_iff in H. destruct H as [Hab Hp].
    apply Ascii.eqb_eq in Hab. subst b.
    destruct (IH l Hp) as [z ->]. exists z. reflexivity.
Qed.

Lemma take_drop (i : Z) (s : string) : Str.take i s ++ Str.drop i s = s.
Proof.
  unfold Str.take, Str.drop. rewrite <- of_chars_app, firstn_skipn.
  apply of_chars_chars.
Qed.

Lemma chars_casefold (s : string) :
  Str.chars (Str.casefold s) = map Str.lower (Str.chars s).
Proof. unfold Str.casefold. apply chars_of_chars. Qed.

Lemma lower_dot (c : ascii) : Str.lower c = "."%char -> c = "."%char.
Proof.
  destruct c as [b0 b1 b2 b3 b4 b5 b6 b7].
  destruct b0, b1, b2, b3, b4, b5, b6, b7; vm_compute; intro H;
    first [reflexivity | discriminate H].
Qed.

(** A name that ends with a suffix, once case-folded. *)
Lemma endswith_casefold_app (stem ext suffix : string) :
  Str.casefold ext = suffix ->
  Str.endswith (Str.casefold (stem ++ ext)) suffix = true.
Proof.
  intros <-. unfold Str.endswith.
  rewrite !chars_casefold, chars_app, map_app, rev_app_distr.
  apply prefixb_app.
Qed.

(** ** [splitext] *)

Lemma splitext_app (p : string) :
  fst (PosixPath.splitext p) ++ snd (PosixPath.splitext p) = p.
Proof.
  unfold PosixPath.splitext.
  match goal with |- context [if ?c then _ else _] => destruct c end; simpl.
  - apply take_drop.
  - clear. induction p as [|c p IH]; simpl; [reflexivity|]. f_equal. exact IH.
Qed.

Lemma find_char_fourth (c x1 x2 x3 : ascii) (rest : list ascii) :
  x1 <> c -> x2 <> c -> x3 <> c ->
  Str.find_char c (x1 :: x2 :: x3 :: c :: rest) = Some 3.
Proof.
  intros H1 H2 H3. simpl.
  apply Ascii.eqb_neq in H1, H2, H3. rewrite H1, H2, H3, Ascii.eqb_refl.
  reflexivity.
Qed.

(** The extension of a name that ends with a dot and three characters
    other than dots is that ending, unless the name has no extension. *)
Lemma splitext_three (p : string) (x1 x2 x3 : ascii) (rest : list ascii) :
  rev (Str.chars p) = x1 :: x2 :: x3 :: "."%char :: rest ->
  x1 <> "."%char -> x2 <> "."%char -> x3 <> "."%char ->
  PosixPath.splitext p = (p, "")
  \/ PosixPath.splitext p
     = (Str.of_chars (rev rest), Str.of_chars ["."%char; x3; x2; x1]).
Proof.
  intros Hrev H1 H2 H3.
  assert (Hl : Str.chars p = (rev rest ++ ["."%char; x3; x2; x1])%list).
  { rewrite <- (rev_involutive (Str.chars p)), Hrev. simpl.
    repeat rewrite <- app_assoc. reflexivity. }
  unfold PosixPath.splitext.
  match goal with |- context [if ?c then _ else _] => destruct c end;
    [right | left; reflexivity].
  assert (Hdot : Z.to_nat (Str.rfind PosixPath.extsep p) = List.length (rev rest)).
  { unfold Str.rfind, PosixPath.extsep. rewrite Hrev.
    rewrite (find_char_fourth "."%char x1 x2 x3 rest H1 H2 H3).
    rewrite length_chars, Hl, length_app. simpl. lia. }
  unfold Str.take, Str.drop. rewrite Hdot, Hl.
  rewrite firstn_app, Nat.sub_diag, firstn_all. simpl. rewrite app_nil_r.
  rewrite skipn_app, Nat.sub_diag, skipn_all. reflexivity.
Qed.

Lemma endswith_casefold_inv (name : string) (e1 e2 e3 : ascii) :
  e1 <> "."%char -> e2 <> "."%char -> e3 <> "."%char ->
  Str.endswith (Str.casefold name)
    (String "."%char (String e3 (String e2 (String e1 EmptyString)))) = true ->
  exists x1 x2 x3 rest,
    rev (Str.chars name) = x1 :: x2 :: x3 :: "."%char :: rest
    /\ Str.lower x1 = e1 /\ Str.lower x2 = e2 /\ Str.lower x3 = e3
    /\ x1 <> "."%char /\ x2 <> "."%char /\ x3 <> "."%char.
Proof.
  intros H1 H2 H3. unfold Str.endswith.
  rewrite chars_casefold, <- map_rev. cbn -[Ascii.eqb Str.lower].
  destruct (rev (Str.chars name)) as [|x1 [|x2 [|x3 [|x4 rest]]]];
    cbn -[Ascii.eqb Str.lower]; rewrite ?andb_false_r; try discriminate.
  intro H.
  apply andb_true_iff in H. destruct H as [E1 H].
  apply andb_true_iff in H. destruct H as [E2 H].
  apply andb_true_iff in H. destruct H as [E3 H].
  apply andb_true_iff in H. destruct H as [E4 _].
  apply Ascii.eqb_eq in E1, E2, E3, E4.
  symmetry in E4. apply lower_dot in E4. subst x4.
  exists x1, x2, x3, rest.
  repeat split; try (symmetry; assumption).
  - intro Hx. apply H1. rewrite E1, Hx. reflexivity.
  - intro Hx. apply H2. rewrite E2, Hx. reflexivity.
  - intro Hx. apply H3. rewrite E3, Hx. reflexivity.
Qed.

(** The replacing branch of the extension fixers: either the name has no
    extension and stays whole, or its extension is the ending found. *)
Lemma splitext_of_ending (name : string) (e1 e2 e3 : ascii) :
  e1 <> "."%char -> e2 <> "."%char -> e3 <> "."%char ->
  Str.endswith (Str.casefold name)
    (String "."%char (String e3 (String e2 (String e1 EmptyString)))) = true ->
  PosixPath.splitext name = (name, "")
  \/ Str.casefold (snd (PosixPath.splitext name))
     = String "."%char (String e3 (String e2 (String e1 EmptyString))).
Proof.
  intros H1 H2 H3 H.
  destruct (endswith_casefold_inv name e1 e2 e3 H1 H2 H3 H)
    as (x1 & x2 & x3 & rest & Hrev & L1 & L2 & L3 & N1 & N2 & N3).
  destruct (splitext_three name x1 x2 x3 rest Hrev N1 N2 N3) as [E|E];
    [left; exact E | right].
  rewrite E. simpl. unfold Str.casefold. simpl. rewrite L1, L2, L3.
  reflexivity.
Qed.

(** ** Extension fixing *)

(** C6.  The package extension fixer gives the name without its extension,
    followed by the extension of the game, when the extension of the name,
    which is what [os.path.splitext] splits off, is [.bsa] or [.ba2] in any
    case of letters; it gives the name followed by the extension of the game
    otherwise.  For Fallout 4, whose extension is [.ba2], [Foo.BSA] becomes
    [Foo.ba2]. *)
Theorem fix_package_extension_replaces_or_appends :
  (forall (self : PackageManager) (package_name : string),
      _fix_package_extension self package_name
      = if String.eqb (Str.casefold (snd (PosixPath.splitext package_name))) ".bsa"
           || String.eqb (Str.casefold (snd (PosixPath.splitext package_name))) ".ba2"
        then fst (PosixPath.splitext package_name) ++ pak_extension self
        else package_name ++ pak_extension self)
  /\ (forall (ppj : PapyrusProject),
         game_type (ppj_options ppj) = "fo4" ->
         _fix_package_extension (__init__ ppj) "Foo.BSA" = "Foo.ba2").
Proof.
  split.
  - intros self name. unfold _fix_package_extension.
    destruct (Str.endswith (Str.casefold name) ".ba2") eqn:Eba2;
      [|destruct (Str.endswith (Str.casefold name) ".bsa") eqn:Ebsa]; simpl.
    + destruct (splitext_of_ending name "2" "a" "b") as [E|E];
        try (exact Eba2); try discriminate.
      * rewrite E. reflexivity.
      * rewrite E. reflexivity.
    + destruct (splitext_of_ending name "a" "s" "b") as [E|E];
        try (exact Ebsa); try discriminate.
      * rewrite E. reflexivity.
      * rewrite E. reflexivity.
    + destruct (String.eqb (Str.casefold (snd (PosixPath.splitext name))) ".bsa")
        eqn:Xbsa.
      * apply String.eqb_eq in Xbsa.
        rewrite <- (splitext_app name) in Ebsa.
        rewrite (endswith_casefold_app _ _ _ Xbsa) in Ebsa. discriminate.
      * destruct (String.eqb (Str.casefold (snd (PosixPath.splitext name))) ".ba2")
          eqn:Xba2; [|reflexivity].
        apply String.eqb_eq in Xba2.
        rewrite <- (splitext_app name) in Eba2.
        rewrite (endswith_casefold_app _ _ _ Xba2) in Eba2. discriminate.
  - intros ppj Hgame. unfold _fix_package_extension, __init__. simpl.
    rewrite Hgame. reflexivity.
Qed.

(** The example of the spec, on the Fallout 4 manager of the example tree. *)
Lemma fix_package_extension_witness :
  _fix_package_extension (demo_manager "fo4" [] []) "Foo.BSA" = "Foo.ba2".
Proof.
  apply (proj2 fix_package_extension_replaces_or_appends
           (mkProject (demo_options "fo4") "Bar" "/proj" [] [])).
  reflexivity.
Defined.

(** ** The bound on the recursion of [iglob] *)

Lemma length_app_string (a b : string) :
  String.length (a ++ b) = String.length a + String.length b.
Proof. rewrite !length_chars, chars_app. apply length_app. Qed.

Lemma lstrip_chars_suffix (c : ascii) (l : list ascii) :
  exists d, l = (d ++ Str.lstrip_chars c l)%list.
Proof.
  induction l as [|a l [d IH]]; simpl.
  - exists []. reflexivity.
  - destruct (Ascii.eqb a c).
    + exists (a :: d). simpl. f_equal. exact IH.
    + exists []. reflexivity.
Qed.

Lemma rstrip_prefix (c : ascii) (s : string) :
  exists r, s = Str.rstrip c s ++ r.
Proof.
  unfold Str.rstrip.
  destruct (lstrip_chars_suffix c (rev (Str.chars s))) as [d Hd].
  exists (Str.of_chars (rev d)).
  rewrite <- of_chars_app, <- rev_app_distr, <- Hd, rev_involutive.
  symmetry. apply of_chars_chars.
Qed.

(** The directory part of a path begins the path. *)
Lemma split_head_prefix (p : string) :
  exists r, p = fst (PosixPath.split p) ++ r.
Proof.
  unfold PosixPath.split. cbn [fst].
  set (head := Str.take (Str.rfind PosixPath.sep p + 1) p).
  assert (Hhead : exists r, p = head ++ r).
  { exists (Str.drop (Str.rfind PosixPath.sep p + 1) p).
    symmetry. apply take_drop. }
  destruct (negb (Str.is_empty head) && negb (PosixPath.all_seps head));
    [|exact Hhead].
  destruct Hhead as [r Hr].
  destruct (rstrip_prefix PosixPath.sep head) as [r' Hr'].
  exists (r' ++ r).
  rewrite Hr at 1. rewrite Hr' at 1.
  clear. induction (Str.rstrip PosixPath.sep head) as [|a h IH]; simpl;
    [reflexivity | f_equal; exact IH].
Qed.

Lemma split_head_shorter (p : string) :
  String.eqb (fst (PosixPath.split p)) p = false ->
  String.length (fst (PosixPath.split p)) < String.length p.
Proof.
  intro Hneq. apply String.eqb_neq in Hneq.
  destruct (split_head_prefix p) as [r Hr].
  destruct r as [|a r].
  - exfalso. apply Hneq. rewrite Hr at 2.
    clear. induction (fst (PosixPath.split p)) as [|a h IH]; simpl;
      [reflexivity | f_equal; exact IH].
  - rewrite Hr at 2. rewrite length_app_string. simpl. lia.
Qed.

Lemma iglob_rec_unfold (n : nat) (f : FS.t) (recursive : bool)
  (pathname : string) :
  Glob.iglob_rec (S n) f recursive pathname
  = (let '(dirname, basename) := PosixPath.split pathname in
     if negb (Glob.has_magic pathname) then
       if negb (Str.is_empty basename) then
         if FS.lexists f pathname then [pathname] else []
       else
         if FS.isdir f dirname then [pathname] else []
     else if Str.is_empty dirname then
       if recursive && Glob.isrecursive basename
       then Glob.glob2 f "" basename
       else Glob.glob1 f "" basename
     else
       let dirs :=
         if negb (String.eqb dirname pathname) && Glob.has_magic dirname
         then Glob.iglob_rec n f recursive dirname
         else [dirname] in
       let glob_in_dir :=
         if Glob.has_magic basename then
           if recursive && Glob.isrecursive basename then Glob.glob2 else Glob.glob1
         else Glob.glob0 in
       flat_map
         (fun d => map (PosixPath.join d) (glob_in_dir f d basename))
         dirs).
Proof. reflexivity. Qed.

(** Any bound above the length of the pattern gives the same matches: the
    bound that [iglob] takes never cuts the recursion short. *)
Lemma iglob_rec_bound_irrelevant (f : FS.t) (recursive : bool) (k : nat) :
  forall (pathname : string) (n m : nat),
    String.length pathname <= k ->
    String.length pathname < n ->
    String.length pathname < m ->
    Glob.iglob_rec n f recursive pathname
    = Glob.iglob_rec m f recursive pathname.
Proof.
  induction k as [|k IH]; intros pathname n m Hk Hn Hm;
    (destruct n as [|n]; [lia|]); (destruct m as [|m]; [lia|]);
    rewrite !iglob_rec_unfold;
    pose proof (split_head_shorter pathname) as Hshort;
    destruct (PosixPath.split pathname) as [dirname basename];
    cbn [fst] in Hshort;
    destruct (negb (Glob.has_magic pathname)); try reflexivity;
    destruct (Str.is_empty dirname); try reflexivity;
    destruct (String.eqb dirname pathname); cbn [negb andb]; try reflexivity;
    destruct (Glob.has_magic dirname); try reflexivity;
    specialize (Hshort eq_refl).
  - lia.
  - rewrite (IH dirname n m); [reflexivity | lia | lia | lia].
Qed.

(** ** The loop of [create_zip] *)





(** ** A relative pattern with a folder part *)

(** The scan of the immediate children of [/proj/src]. *)
Lemma iglob_children_of_root (f : FS.t) :
  Glob.iglob f "/proj/src/*" false
  = map (PosixPath.join "/proj/src") (Glob.glob1 f "/proj/src" "*").
Proof.
  unfold Glob.iglob.
  change (Str.is_empty "/proj/src/*" || false && Glob.isrecursive (Str.take 2 "/proj/src/*"))
    with false.
  cbv beta iota.
  change (String.length "/proj/src/*") with 11.
  cbn [Glob.iglob_rec].
  change (PosixPath.split "/proj/src/*") with ("/proj/src", "*").
  cbv beta iota.
  change (Glob.has_magic "/proj/src/*") with true.
  change (Glob.has_magic "/proj/src") with false.
  change (Glob.has_magic "*") with true.
  change (Str.is_empty "/proj/src") with false.
  change (String.eqb "/proj/src" "/proj/src/*") with false.
  cbn [negb andb flat_map].
  apply app_nil_r.
Qed.

Lemma join_root_is_absolute (name : string) :
  Str.startswith (PosixPath.join "/proj/src" name) "/" = true.
Proof.
  unfold PosixPath.join.
  destruct (Str.startswith name "/") eqn:H; [exact H|].
  reflexivity.
Qed.

Lemma fnmatch_absolute_against_scripts (path : string) :
  Str.startswith path "/" = true ->
  Fnmatch.fnmatch path "Scripts/*.pex" = false.
Proof.
  unfold Str.startswith, Fnmatch.fnmatch.
  set (ts := Fnmatch.toks 0 (Str.chars "Scripts/*.pex")).
  vm_compute in ts. subst ts.
  change (Str.chars "/") with ["/"%char].
  destruct (Str.chars path) as [|c l]; [discriminate|].
  cbn [Str.prefixb Fnmatch.match_toks].
  rewrite andb_true_r. intro H.
  apply Ascii.eqb_eq in H. subst c. reflexivity.
Qed.

(** Whatever the file system holds, the include [Scripts/*.pex] without
    recursion under the root [/proj/src] yields nothing and logs nothing:
    the scan lists the immediate children of the root, and the full path of
    each is matched against the relative pattern. *)
Lemma scripts_pattern_yields_nothing (f : FS.t) :
  include_paths f (include_no_recurse "Scripts/*.pex") "/proj/src" = ([], []).
Proof.
  unfold include_paths.
  change (path_or_pattern_of (include_no_recurse "Scripts/*.pex") "/proj/src")
    with "Scripts/*.pex".
  cbn [include_no_recurse inc_tag inc_NoRecurse inc_text].
  change (Str.endswith "Include" "Include") with true.
  change (String.eqb "True" "True") with true.
  change (Str.startswith "Scripts/*.pex" PosixPath.pardir) with false.
  change (Str.has_char "*" "Scripts/*.pex") with true.
  change (PosixPath.isabs "Scripts/*.pex") with false.
  cbn [negb wildcard_pattern_of].
  change (PosixPath.join "/proj/src" "*") with "/proj/src/*".
  rewrite iglob_children_of_root.
  f_equal.
  induction (Glob.glob1 f "/proj/src" "*") as [|name names IH]; [reflexivity|].
  cbn [map filter].
  rewrite (fnmatch_absolute_against_scripts _ (join_root_is_absolute name)).
  rewrite andb_false_r. exact IH.
Qed.

(** ** The end-to-end package scenario *)

(** C2, refuted as stated.  On the example tree the folder
    [/proj/src/Scripts] holds two files that match the pattern and one that
    does not; the package [Foo] of the scenario stages neither of the two: the
    archiver, run once, finds no staging folder at all. *)
Lemma scenario_stages_no_file :
  let self :=
    demo_manager "tesv"
      [package_of "Foo" "/proj/src" [include_no_recurse "Scripts/*.pex"]] [] in
  FS.listdir fs_demo "/proj/src/Scripts" = ["a.pex"; "b.pex"; "c.txt"]
  /\ exists run,
       bsarch_runs (snd (create_packages self demo_world)) = [run]
       /\ FS.isfile (seen run) "/proj/tmp/Scripts/a.pex" = false
       /\ FS.isfile (seen run) "/proj/tmp/Scripts/b.pex" = false
       /\ FS.lexists (seen run) "/proj/tmp" = false.
Proof.
  split; [vm_compute; reflexivity|].
  eexists. split; [vm_compute; reflexivity|].
  repeat split; vm_compute; reflexivity.
Qed.

Lemma fix_package_extension_Foo (p : PapyrusProject) :
  game_type (ppj_options p) <> "fo4" ->
  _fix_package_extension (__init__ p) "Foo" = "Foo.bsa".
Proof.
  intro H. apply String.eqb_neq in H.
  unfold _fix_package_extension, __init__. cbn [pak_extension].
  rewrite H. reflexivity.
Qed.

Lemma build_commands_classic (p : PapyrusProject)
  (containing_folder output_path : string) :
  game_type (ppj_options p) <> "fo4" ->
  game_type (ppj_options p) <> "sse" ->
  build_commands (__init__ p) containing_folder output_path
  = Str.quoted (bsarch_path (ppj_options p)) ++ " pack "
    ++ Str.quoted containing_folder ++ " " ++ Str.quoted output_path
    ++ " -tes5".
Proof.
  intros Hfo4 Hsse. apply String.eqb_neq in Hfo4, Hsse.
  unfold build_commands, __init__. cbn [options].
  rewrite Hfo4, Hsse. reflexivity.
Qed.

(** C2, amended.  For the Classic game identity and the single package
    [Foo] with root [/proj/src] and the one include [Scripts/*.pex] without
    recursion, whatever the folders hold: when the package output folder
    exists and no file is in the way of the output, [create_packages]
    stages no file, the only record logged being that of the creation, and
    runs the archiver exactly once, on the file system as the first clearing
    of the staging folder left it, with the command the spec gives. *)
Theorem scripts_pattern_package_runs_archiver_on_empty_staging
  (p : PapyrusProject) (w : world) :
  let self := __init__ p in
  let staging := temp_path (ppj_options p) in
  let file_path := PosixPath.join (package_path (ppj_options p)) "Foo.bsa" in
  let f1 := cleared (fs w) staging in
  packages_node p
  = [package_of "Foo" "/proj/src" [include_no_recurse "Scripts/*.pex"]] ->
  game_type (ppj_options p) <> "fo4" ->
  game_type (ppj_options p) <> "sse" ->
  FS.isdir f1 (package_path (ppj_options p)) = true ->
  FS.isfile f1 file_path = false ->
  create_packages self w
  = (Ok tt,
     mkWorld (cleared f1 staging)
       (log w ++ [(INFO, "Creating " ++ Str.quoted "Foo.bsa" ++ "...")])
       (bsarch_runs w
        ++ [mkRun (Str.quoted (bsarch_path (ppj_options p)) ++ " pack "
                   ++ Str.quoted staging ++ " " ++ Str.quoted file_path
                   ++ " -tes5")
              f1])
       (zips w)).
Proof.
  intros self staging file_path f1 Hnodes Hfo4 Hsse Hdir Hfile.
  unfold create_packages, clear_temporary_data, bind, get_fs, set_fs.
  cbn [fs log bsarch_runs zips].
  subst self. cbn [__init__ options ppj packages_node temp_path].
  fold staging. fold f1. rewrite Hdir. cbn [negb ret].
  rewrite Hnodes.
  cbn [create_packages_loop].
  change (package_file_name _ 0 _ []) with ("Foo", ["foo"]).
  change (negb (Str.endswith (tag (package_of "Foo" "/proj/src"
            [include_no_recurse "Scripts/*.pex"])) "Package")) with false.
  cbv beta iota.
  rewrite (fix_package_extension_Foo p Hfo4).
  rewrite (build_commands_classic p _ _ Hfo4 Hsse).
  change (options (__init__ p)) with (ppj_options p).
  fold staging. fold file_path.
  change (children (package_of "Foo" "/proj/src" [include_no_recurse "Scripts/*.pex"]))
    with [include_no_recurse "Scripts/*.pex"].
  change (RootDir (package_of "Foo" "/proj/src" [include_no_recurse "Scripts/*.pex"]))
    with "/proj/src".
  unfold bind at 1. unfold _check_write_permission, bind at 1, get_fs at 1.
  cbn [fs]. rewrite Hfile. cbn [ret].
  unfold bind at 1. unfold emit at 1.
  unfold bind at 1.
  unfold for_include_paths. cbn [for_each].
  unfold bind at 1 2. unfold get_fs at 1. cbn [fs].
  rewrite scripts_pattern_yields_nothing.
  unfold emit_all, bind, ret, ProcessManager.run_bsarch, clear_temporary_data,
    bind, get_fs, set_fs.
  cbn [for_each fs log bsarch_runs zips ret].
  rewrite app_nil_r.
  reflexivity.
Qed.

(** The scenario on the example tree with its output folder in place. *)
Lemma scripts_pattern_package_witness :
  create_packages
    (demo_manager "tesv"
       [package_of "Foo" "/proj/src" [include_no_recurse "Scripts/*.pex"]] [])
    (mkWorld fs_with_out [] [] [])
  = (Ok tt,
     mkWorld fs_with_out
       [(INFO, "Creating " ++ Str.quoted "Foo.bsa" ++ "...")]
       [mkRun (Str.quoted "/tools/bsarch" ++ " pack " ++ Str.quoted "/proj/tmp"
               ++ " " ++ Str.quoted "/proj/out/Foo.bsa" ++ " -tes5")
          fs_with_out]
       []).
Proof.
  apply (scripts_pattern_package_runs_archiver_on_empty_staging
           (mkProject (demo_options "tesv") "Bar" "/proj"
              [package_of "Foo" "/proj/src" [include_no_recurse "Scripts/*.pex"]] [])
           (mkWorld fs_with_out [] [] []));
    [reflexivity | discriminate | discriminate | reflexivity | reflexivity].
Defined.

(** The layout fix at work: with the root one level deeper and the pattern
    without a folder part, the two compiled scripts are staged under
    [Scripts] and the archiver finds them there. *)
Example deeper_root_stages_both_scripts :
  let self :=
    demo_manager "tesv"
      [package_of "Foo" "/proj/src/Scripts" [include_no_recurse "*.pex"]] [] in
  exists run,
    bsarch_runs (snd (create_packages self demo_world)) = [run]
    /\ FS.listdir (seen run) "/proj/tmp/Scripts" = ["a.pex"; "b.pex"]
    /\ FS.listdir (seen run) "/proj/tmp" = ["Scripts"]
    /\ command run
       = Str.quoted "/tools/bsarch" ++ " pack " ++ Str.quoted "/proj/tmp"
         ++ " " ++ Str.quoted "/proj/out/Foo.bsa" ++ " -tes5".
Proof.
  eexists. split; [vm_compute; reflexivity|].
  repeat split; vm_compute; reflexivity.
Qed.

(** The scenario of the spec for zip files: an include that the resolver
    finds outside the root is warned about and dropped, the container is
    written with no entry and the run goes on. *)
Example zip_include_outside_root_is_dropped :
  let self :=
    demo_manager "tesv" [] [zip_of "Z" "/proj/src" [include_of "/other/x"]] in
  fst (create_zip self demo_world) = Ok tt
  /\ zips (snd (create_zip self demo_world))
     = [mkZip "/proj/zip/Z.zip" ZIP_STORED []]
  /\ log (snd (create_zip self demo_world))
     = [ (INFO, "Creating " ++ Str.quoted "Z.zip" ++ "...");
         (WARNING, "Cannot include path outside RootDir: " ++ Str.quoted "/other/x");
         (INFO, "Wrote ZIP file: " ++ Str.quoted "/proj/zip/Z.zip") ].
Proof. repeat split; vm_compute; reflexivity. Qed.

(** * Further properties *)

(** ** The extension fixers on every name *)

Lemma endswith_app (stem suffix : string) :
  Str.endswith (stem ++ suffix) suffix = true.
Proof.
  unfold Str.endswith. rewrite chars_app, rev_app_distr. apply prefixb_app.
Qed.

(** X1.  The zip extension fixer gives the name without its extension,
    followed by [.zip], when the extension of the name, which is what
    [os.path.splitext] splits off, is [.zip] in any case of letters; it gives
    the name followed by [.zip] otherwise. *)
Theorem fix_zip_extension_replaces_or_appends
  (self : PackageManager) (zip_name : string) :
  _fix_zip_extension self zip_name
  = if String.eqb (Str.casefold (snd (PosixPath.splitext zip_name))) ".zip"
    then fst (PosixPath.splitext zip_name) ++ zip_extension self
    else zip_name ++ zip_extension self.
Proof.
  unfold _fix_zip_extension.
  destruct (Str.endswith (Str.casefold zip_name) ".zip") eqn:Ezip; simpl.
  - destruct (splitext_of_ending zip_name "p" "i" "z") as [E|E];
      try (exact Ezip); try discriminate.
    + rewrite E. reflexivity.
    + rewrite E. reflexivity.
  - destruct (String.eqb (Str.casefold (snd (PosixPath.splitext zip_name))) ".zip")
      eqn:X; [|reflexivity].
    apply String.eqb_eq in X.
    rewrite <- (splitext_app zip_name) in Ezip.
    rewrite (endswith_casefold_app _ _ _ X) in Ezip. discriminate.
Qed.

(** X2.  Whatever the name declared, the file name a manager made by
    [__init__] fixes for a package ends with [.ba2] when the game is [fo4]
    and with [.bsa] for every other game, and the one it fixes for a zip
    file ends with [.zip]. *)
Theorem fixed_names_end_with_the_extension
  (p : PapyrusProject) (name : string) :
  Str.endswith (_fix_package_extension (__init__ p) name)
    (if String.eqb (game_type (ppj_options p)) "fo4" then ".ba2" else ".bsa")
  = true
  /\ Str.endswith (_fix_zip_extension (__init__ p) name) ".zip" = true.
Proof.
  unfold _fix_package_extension, _fix_zip_extension, __init__.
  cbn [pak_extension zip_extension].
  split.
  - destruct (negb _); apply endswith_app.
  - destruct (negb _); apply endswith_app.
Qed.

(** ** The resolver on every include *)

(** X3.  One child of the includes element makes the resolver log at most
    one record, always a warning, and a child that is warned about yields
    no path. *)
Theorem include_warns_at_most_once_and_then_yields_nothing (f : FS.t)
  (include_node : include_element) (root_path : string) :
  fst (include_paths f include_node root_path) = []
  \/ exists msg,
       fst (include_paths f include_node root_path) = [(WARNING, msg)]
       /\ snd (include_paths f include_node root_path) = [].
Proof.
  unfold include_paths. cbv zeta.
  repeat match goal with
         | |- context [if ?c then _ else _] => destruct c
         end;
    cbn [fst snd]; eauto.
Qed.

(** X6.  Every path the resolver yields for a child names an existing
    regular file, with one exception: the join of the root with a relative
    text that has no star and names no directory, which is yielded unseen. *)
Theorem yielded_path_is_a_file_or_the_relative_fallback (f : FS.t)
  (include_node : include_element) (root_path path : string) :
  In path (snd (include_paths f include_node root_path)) ->
  FS.isfile f path = true
  \/ (path = PosixPath.join root_path (path_or_pattern_of include_node root_path)
      /\ Str.has_char "*" (path_or_pattern_of include_node root_path) = false
      /\ PosixPath.isabs (path_or_pattern_of include_node root_path) = false
      /\ FS.isdir f path = false).
Proof.
  unfold include_paths, PathHelper.find_include_paths. cbv zeta.
  destruct (negb (Str.endswith (inc_tag include_node) "Include"));
    [intros []|].
  destruct (Str.startswith (inc_text include_node) PosixPath.pardir);
    [intros []|].
  destruct (Str.has_char "*" (path_or_pattern_of include_node root_path))
    eqn:Hstar.
  - destruct (negb (PosixPath.isabs (path_or_pattern_of include_node root_path)));
      [|destruct (Str.contains root_path (path_or_pattern_of include_node root_path))];
      cbn [snd]; try (intros []);
      intro H; apply filter_In in H; destruct H as [_ H];
      apply andb_true_iff in H; left; apply H.
  - destruct (PosixPath.isabs (path_or_pattern_of include_node root_path))
      eqn:Habs.
    + destruct (negb (Str.contains root_path (path_or_pattern_of include_node root_path)));
        [intros []|].
      destruct (FS.isfile f (path_or_pattern_of include_node root_path)) eqn:Hfile;
        cbn [snd].
      * intros [<-|[]]. left. exact Hfile.
      * intro H. apply filter_In in H. left. apply H.
    + destruct (FS.isdir f (PosixPath.join root_path
                              (path_or_pattern_of include_node root_path)))
        eqn:Hdir; cbn [negb snd].
      * intro H. apply filter_In in H. left. apply H.
      * intros [<-|[]]. right. auto.
Qed.

(** A pattern yields a file of the tree; a missing relative path is the
    fallback. *)
Lemma yielded_path_witness :
  (FS.isfile fs_demo "/proj/src/top.pex" = true
   \/ ("/proj/src/top.pex"
       = PosixPath.join "/proj/src"
           (path_or_pattern_of (include_no_recurse "*.pex") "/proj/src")
       /\ Str.has_char "*" (path_or_pattern_of (include_no_recurse "*.pex") "/proj/src")
          = false
       /\ PosixPath.isabs (path_or_pattern_of (include_no_recurse "*.pex") "/proj/src")
          = false
       /\ FS.isdir fs_demo "/proj/src/top.pex" = false)).
Proof.
  apply (yielded_path_is_a_file_or_the_relative_fallback
           fs_demo (include_no_recurse "*.pex") "/proj/src" "/proj/src/top.pex").
  vm_compute. left. reflexivity.
Defined.

(** ** The current-directory marker *)

Lemma replace1_leading (c : ascii) (rest new : string) :
  Str.replace1 (String c rest) (String c EmptyString) new = new ++ rest.
Proof.
  unfold Str.replace1, Str.chars. cbn [list_ascii_of_string Str.replace1_chars Str.prefixb].
  rewrite Ascii.eqb_refl. cbn [andb List.length skipn].
  rewrite of_chars_app. unfold Str.of_chars.
  rewrite !string_of_list_ascii_of_string. reflexivity.
Qed.

Lemma normpath_absolute (path : string) :
  PosixPath.isabs path = true -> PosixPath.isabs (PosixPath.normpath path) = true.
Proof.
  unfold PosixPath.isabs, PosixPath.normpath. intro H.
  destruct path as [|c path]; [discriminate|].
  cbn [Str.is_empty]. rewrite H.
  destruct (Str.startswith (String c path) "//"
            && negb (Str.startswith (String c path) "///"));
    reflexivity.
Qed.

Lemma append_absolute (a b : string) :
  PosixPath.isabs a = true -> PosixPath.isabs (a ++ b) = true.
Proof.
  unfold PosixPath.isabs, Str.startswith.
  destruct a as [|c a]; [discriminate|]. intro H. exact H.
Qed.

(** X4.  In a text that begins with the current-directory marker, that one
    character is replaced by the root and the result is normalized: the
    rest of the text follows the root as it stands, with no separator put
    in.  Under an absolute root the outcome is an absolute path. *)
Theorem leading_curdir_is_replaced_by_the_root
  (include_node : include_element) (root_path rest : string) :
  inc_text include_node = String "."%char rest ->
  path_or_pattern_of include_node root_path
  = PosixPath.normpath (root_path ++ rest)
  /\ (PosixPath.isabs root_path = true ->
      PosixPath.isabs (path_or_pattern_of include_node root_path) = true).
Proof.
  intro Htext.
  assert (E : path_or_pattern_of include_node root_path
              = PosixPath.normpath (root_path ++ rest)).
  { unfold path_or_pattern_of. rewrite Htext.
    replace (Str.startswith (String "."%char rest) PosixPath.curdir) with true
      by (unfold Str.startswith; reflexivity).
    rewrite orb_true_r.
    unfold PosixPath.curdir. rewrite replace1_leading. reflexivity. }
  split; [exact E|].
  intro Habs. rewrite E. apply normpath_absolute, append_absolute, Habs.
Qed.

(** The folder [./Scripts] is found under the root; the hidden name [.hid]
    is glued to the root. *)
Lemma leading_curdir_witness :
  path_or_pattern_of (include_of "./Scripts") "/proj/src" = "/proj/src/Scripts"
  /\ path_or_pattern_of (include_of ".hid") "/proj/src" = "/proj/srchid".
Proof.
  split.
  - exact (proj1 (leading_curdir_is_replaced_by_the_root
                    (include_of "./Scripts") "/proj/src" "/Scripts" eq_refl)).
  - exact (proj1 (leading_curdir_is_replaced_by_the_root
                    (include_of ".hid") "/proj/src" "hid" eq_refl)).
Defined.

(** ** Relative patterns against absolute candidates *)

Lemma isabs_inv (s : string) :
  PosixPath.isabs s = true -> exists r, s = String "/"%char r.
Proof.
  unfold PosixPath.isabs, Str.startswith.
  destruct s as [|c s]; [discriminate|].
  cbn [Str.chars list_ascii_of_string Str.prefixb].
  rewrite andb_true_r. intro H. apply Ascii.eqb_eq in H. subst c.
  exists s. reflexivity.
Qed.

Lemma join_absolute (d x : string) :
  PosixPath.isabs d = true -> PosixPath.isabs (PosixPath.join d x) = true.
Proof.
  intro Hd. unfold PosixPath.join.
  destruct (Str.startswith x "/") eqn:Hx; [exact Hx|].
  destruct (Str.is_empty d || Str.endswith d "/");
    apply append_absolute, Hd.
Qed.

Lemma find_char_bound (c : ascii) (l : list ascii) :
  In c l -> exists i, Str.find_char c l = Some i /\ i < List.length l.
Proof.
  induction l as [|a l IH]; intros Hin; [destruct Hin|].
  cbn [Str.find_char List.length].
  destruct (Ascii.eqb a c) eqn:E.
  - exists 0. split; [reflexivity | lia].
  - destruct Hin as [->|Hin]; [rewrite Ascii.eqb_refl in E; discriminate|].
    destruct (IH Hin) as (i & Hi & Hlt). rewrite Hi.
    exists (S i). split; [reflexivity | lia].
Qed.

Lemma take_absolute (i : Z) (p : string) :
  PosixPath.isabs p = true -> (1 <= i)%Z -> PosixPath.isabs (Str.take i p) = true.
Proof.
  intros Hp Hi. destruct (isabs_inv p Hp) as [r ->].
  unfold Str.take.
  destruct (Z.to_nat i) as [|k] eqn:Hk; [lia|].
  reflexivity.
Qed.

Lemma lstrip_chars_nil (c : ascii) (l : list ascii) :
  Str.lstrip_chars c l = [] -> forall a, In a l -> a = c.
Proof.
  induction l as [|b l IH]; intros H a Hin; [destruct Hin|].
  cbn [Str.lstrip_chars] in H.
  destruct (Ascii.eqb b c) eqn:E; [|discriminate].
  apply Ascii.eqb_eq in E. destruct Hin as [<-|Hin]; [exact E | exact (IH H a Hin)].
Qed.

Lemma lstrip_chars_app (c : ascii) (a b : list ascii) :
  Str.lstrip_chars c a <> [] ->
  Str.lstrip_chars c (a ++ b) = (Str.lstrip_chars c a ++ b)%list.
Proof.
  induction a as [|x a IH]; intro H; [contradiction H; reflexivity|].
  cbn [Str.lstrip_chars app] in *.
  destruct (Ascii.eqb x c); [exact (IH H) | reflexivity].
Qed.

Lemma rstrip_absolute (h : string) :
  PosixPath.isabs h = true -> PosixPath.all_seps h = false ->
  PosixPath.isabs (Str.rstrip PosixPath.sep h) = true.
Proof.
  intros Hh Hseps. destruct (isabs_inv h Hh) as [t ->].
  unfold Str.rstrip.
  cbn [Str.chars list_ascii_of_string rev].
  fold (Str.chars t).
  destruct (Str.lstrip_chars PosixPath.sep (rev (Str.chars t))) as [|y ys] eqn:E.
  - exfalso.
    assert (Hall : PosixPath.all_seps (String "/"%char t) = true).
    { unfold PosixPath.all_seps. apply forallb_forall. intros a Ha.
      apply Ascii.eqb_eq.
      cbn [Str.chars list_ascii_of_string] in Ha. fold (Str.chars t) in Ha.
      destruct Ha as [<-|Ha]; [reflexivity|].
      symmetry. apply (lstrip_chars_nil _ _ E). apply in_rev in Ha. exact Ha. }
    rewrite Hall in Hseps. discriminate.
  - rewrite lstrip_chars_app by (rewrite E; discriminate).
    rewrite E, rev_app_distr. reflexivity.
Qed.

(** The directory part of an absolute path is absolute. *)
Lemma split_head_absolute (p : string) :
  PosixPath.isabs p = true -> PosixPath.isabs (fst (PosixPath.split p)) = true.
Proof.
  intro Hp. unfold PosixPath.split. cbn [fst].
  assert (Hhead : PosixPath.isabs (Str.take (Str.rfind PosixPath.sep p + 1) p) = true).
  { apply take_absolute; [exact Hp|].
    destruct (isabs_inv p Hp) as [r Hr].
    unfold Str.rfind.
    destruct (find_char_bound PosixPath.sep (rev (Str.chars p))) as (i & Hi & Hlt).
    { apply in_rev. rewrite rev_involutive, Hr. left. reflexivity. }
    rewrite Hi. rewrite length_rev, <- length_chars in Hlt. lia. }
  destruct (negb (Str.is_empty (Str.take (Str.rfind PosixPath.sep p + 1) p))
            && negb (PosixPath.all_seps (Str.take (Str.rfind PosixPath.sep p + 1) p)))
    eqn:E; [|exact Hhead].
  apply andb_true_iff in E. destruct E as [_ E]. apply negb_true_iff in E.
  apply rstrip_absolute; assumption.
Qed.

(** Whatever an absolute pattern matches is an absolute path. *)
Lemma iglob_rec_absolute (f : FS.t) (recursive : bool) (n : nat) :
  forall pathname,
    PosixPath.isabs pathname = true ->
    Forall (fun x => PosixPath.isabs x = true)
      (Glob.iglob_rec n f recursive pathname).
Proof.
  induction n as [|n IH]; intros pathname Hp; [constructor|].
  rewrite iglob_rec_unfold.
  pose proof (split_head_absolute pathname Hp) as Hd.
  destruct (PosixPath.split pathname) as [dirname basename]. cbn [fst] in Hd.
  destruct (negb (Glob.has_magic pathname)).
  { destruct (negb (Str.is_empty basename));
      [destruct (FS.lexists f pathname) | destruct (FS.isdir f dirname)];
      repeat constructor; exact Hp. }
  destruct (Str.is_empty dirname) eqn:Hempty.
  { destruct dirname; [discriminate Hd | discriminate Hempty]. }
  cbv zeta.
  assert (Hdirs : Forall (fun x => PosixPath.isabs x = true)
                    (if negb (String.eqb dirname pathname) && Glob.has_magic dirname
                     then Glob.iglob_rec n f recursive dirname
                     else [dirname])).
  { destruct (negb (String.eqb dirname pathname) && Glob.has_magic dirname);
      [apply IH, Hd | repeat constructor; exact Hd]. }
  apply Forall_forall. intros x Hx.
  apply in_flat_map in Hx. destruct Hx as (d & Hdin & Hx).
  apply in_map_iff in Hx. destruct Hx as (name & <- & _).
  apply join_absolute.
  rewrite Forall_forall in Hdirs. apply Hdirs, Hdin.
Qed.

Lemma iglob_absolute (f : FS.t) (pathname : string) (recursive : bool) :
  PosixPath.isabs pathname = true ->
  Forall (fun x => PosixPath.isabs x = true) (Glob.iglob f pathname recursive).
Proof.
  intro Hp. unfold Glob.iglob.
  pose proof (iglob_rec_absolute f recursive (S (String.length pathname))
                pathname Hp) as H.
  destruct (Str.is_empty pathname
            || recursive && Glob.isrecursive (Str.take 2 pathname));
    [|exact H].
  destruct (Glob.iglob_rec (S (String.length pathname)) f recursive pathname)
    as [|s it]; [constructor|].
  destruct (Str.is_empty s); [inversion H; assumption | exact H].
Qed.

(** A pattern that begins with an ordinary character other than the slash
    matches no absolute path. *)
Lemma fnmatch_literal_head (c : ascii) (pat path : string) :
  c <> "*"%char -> c <> "?"%char -> c <> "["%char -> c <> "/"%char ->
  PosixPath.isabs path = true ->
  Fnmatch.fnmatch path (String c pat) = false.
Proof.
  intros Hstar Hq Hb Hsep Hp. destruct (isabs_inv path Hp) as [r ->].
  unfold Fnmatch.fnmatch.
  cbn [Str.chars list_ascii_of_string Fnmatch.toks].
  apply Ascii.eqb_neq in Hstar, Hq, Hb. rewrite Hstar, Hq, Hb.
  cbn [Fnmatch.match_toks].
  assert (E : Ascii.eqb "/"%char c = false)
    by (apply Ascii.eqb_neq; intro X; apply Hsep; symmetry; exact X).
  rewrite E. reflexivity.
Qed.

(** X5.  Under an absolute root, a pattern that is relative and begins
    with an ordinary character (not a star, a question mark, a bracket or a
    slash) yields nothing, with or without recursion and whatever the
    folders hold: the candidates of the scan are absolute paths and each is
    matched whole against the pattern. *)
Theorem relative_pattern_with_literal_head_yields_nothing (f : FS.t)
  (include_node : include_element) (root_path : string)
  (c : ascii) (pat : string) :
  PosixPath.isabs root_path = true ->
  path_or_pattern_of include_node root_path = String c pat ->
  Str.has_char "*" (String c pat) = true ->
  c <> "*"%char -> c <> "?"%char -> c <> "["%char -> c <> "/"%char ->
  snd (include_paths f include_node root_path) = [].
Proof.
  intros Hroot Hpat Hhas Hstar Hq Hb Hsep.
  unfold include_paths. cbv zeta.
  destruct (negb (Str.endswith (inc_tag include_node) "Include"));
    [reflexivity|].
  destruct (Str.startswith (inc_text include_node) PosixPath.pardir);
    [reflexivity|].
  rewrite Hpat, Hhas.
  assert (Hrel : PosixPath.isabs (String c pat) = false).
  { unfold PosixPath.isabs, Str.startswith.
    cbn [Str.chars list_ascii_of_string Str.prefixb].
    replace (Ascii.eqb "/"%char c) with false; [reflexivity|].
    symmetry. apply Ascii.eqb_neq. intro X. apply Hsep. symmetry. exact X. }
  rewrite Hrel. cbn [negb snd].
  pose proof (iglob_absolute f
                (PosixPath.join root_path
                   (wildcard_pattern_of
                      match inc_NoRecurse include_node with
                      | Some v => String.eqb v "True"
                      | None => false
                      end))
                (negb match inc_NoRecurse include_node with
                      | Some v => String.eqb v "True"
                      | None => false
                      end)
                (join_absolute _ _ Hroot)) as Habs.
  induction Habs as [|x l Hx _ IH]; [reflexivity|].
  cbn [filter].
  rewrite (fnmatch_literal_head c pat x Hstar Hq Hb Hsep Hx), andb_false_r.
  exact IH.
Qed.

(** The pattern [Scripts/*.pex] with recursion left on. *)
Lemma relative_pattern_with_literal_head_witness :
  snd (include_paths fs_demo (include_of "Scripts/*.pex") "/proj/src") = [].
Proof.
  apply (relative_pattern_with_literal_head_yields_nothing
           fs_demo (include_of "Scripts/*.pex") "/proj/src" "S"%char "cripts/*.pex");
    try reflexivity; discriminate.
Defined.

(** ** The names taken in a run *)

Lemma mem_In (s : string) (l : list string) : Str.mem s l = true <-> In s l.
Proof.
  unfold Str.mem. rewrite existsb_exists. split.
  - intros (x & Hin & E). apply String.eqb_eq in E. subst x. exact Hin.
  - intro Hin. exists s. split; [exact Hin | apply String.eqb_refl].
Qed.

Lemma mem_false_not_In (s : string) (l : list string) :
  Str.mem s l = false -> ~ In s l.
Proof.
  intros H Hin. apply mem_In in Hin. rewrite Hin in H. discriminate.
Qed.

Lemma NoDup_snoc (s : string) (l : list string) :
  NoDup l -> ~ In s l -> NoDup (l ++ [s]).
Proof.
  intros Hl Hs. induction Hl as [|x l Hx Hl IH]; simpl.
  - constructor; [intros [] | constructor].
  - constructor.
    + intro Hin. apply in_app_or in Hin. destruct Hin as [Hin|[->|[]]].
      * exact (Hx Hin).
      * apply Hs. left. reflexivity.
    + apply IH. intro Hin. apply Hs. right. exact Hin.
Qed.

(** X7.  One round of the naming in [create_zip]: the case-folded name the
    file is written under is among the names taken afterwards, no name
    taken before is dropped, the names taken stay free of duplicates, a
    name not yet taken is kept as declared, and a name already taken gets
    the index of the declaration appended in parentheses. *)
Theorem zip_file_name_bookkeeping (i : nat) (zip_node : element)
  (zip_names : list string) :
  Str.mem (Str.casefold (fst (zip_file_name i zip_node zip_names)))
    (snd (zip_file_name i zip_node zip_names)) = true
  /\ (forall x, In x zip_names -> In x (snd (zip_file_name i zip_node zip_names)))
  /\ (NoDup zip_names -> NoDup (snd (zip_file_name i zip_node zip_names)))
  /\ (Str.mem (Str.casefold (Name zip_node)) zip_names = false ->
      fst (zip_file_name i zip_node zip_names) = Name zip_node)
  /\ (Str.mem (Str.casefold (Name zip_node)) zip_names = true ->
      fst (zip_file_name i zip_node zip_names)
      = Name zip_node ++ " (" ++ str_of_nat i ++ ")").
Proof.
  unfold zip_file_name. cbv zeta. cbn [fst snd].
  set (file_name := if Str.mem (Str.casefold (Name zip_node)) zip_names
                    then Name zip_node ++ " (" ++ str_of_nat i ++ ")"
                    else Name zip_node).
  destruct (Str.mem (Str.casefold file_name) zip_names) eqn:Hmem; cbn [negb].
  - repeat split; auto.
    + subst file_name. intro H. rewrite H. reflexivity.
    + subst file_name. intro H. rewrite H. reflexivity.
  - repeat split.
    + apply mem_In, in_or_app. right. left. reflexivity.
    + intros x Hx. apply in_or_app. left. exact Hx.
    + intro Hnd. apply NoDup_snoc; [exact Hnd | apply mem_false_not_In, Hmem].
    + subst file_name. intro H. rewrite H. reflexivity.
    + subst file_name. intro H. rewrite H. reflexivity.
Qed.

(** The second [Data] of a run, at index 3. *)
Lemma zip_file_name_witness :
  fst (zip_file_name 3 (zip_of "Data" "/proj/src" []) ["data"; "other"])
  = "Data (3)"
  /\ NoDup (snd (zip_file_name 3 (zip_of "Data" "/proj/src" []) ["data"; "other"])).
Proof.
  destruct (zip_file_name_bookkeeping 3 (zip_of "Data" "/proj/src" [])
              ["data"; "other"]) as (_ & _ & Hnd & _ & Hren).
  split.
  - apply Hren. reflexivity.
  - apply Hnd. repeat constructor; simpl; intuition discriminate.
Defined.

(** X8.  One round of the naming in [create_packages]: the case-folded
    name the package is written under is among the names taken afterwards,
    no name taken before is dropped, the names taken stay free of
    duplicates, a name not yet taken is kept as declared, and a name already
    taken is replaced by the name of the project with the index of the
    declaration in parentheses. *)
Theorem package_file_name_bookkeeping (self : PackageManager) (i : nat)
  (package_node : element) (package_names : list string) :
  Str.mem (Str.casefold (fst (package_file_name self i package_node package_names)))
    (snd (package_file_name self i package_node package_names)) = true
  /\ (forall x, In x package_names ->
                In x (snd (package_file_name self i package_node package_names)))
  /\ (NoDup package_names ->
      NoDup (snd (package_file_name self i package_node package_names)))
  /\ (Str.mem (Str.casefold (Name package_node)) package_names = false ->
      fst (package_file_name self i package_node package_names)
      = Name package_node)
  /\ (Str.mem (Str.casefold (Name package_node)) package_names = true ->
      fst (package_file_name self i package_node package_names)
      = project_name (ppj self) ++ " (" ++ str_of_nat i ++ ")").
Proof.
  unfold package_file_name. cbv zeta. cbn [fst snd].
  set (file_name := if Str.mem (Str.casefold (Name package_node)) package_names
                    then project_name (ppj self) ++ " (" ++ str_of_nat i ++ ")"
                    else Name package_node).
  destruct (Str.mem (Str.casefold file_name) package_names) eqn:Hmem; cbn [negb].
  - repeat split; auto.
    + subst file_name. intro H. rewrite H. reflexivity.
    + subst file_name. intro H. rewrite H. reflexivity.
  - repeat split.
    + apply mem_In, in_or_app. right. left. reflexivity.
    + intros x Hx. apply in_or_app. left. exact Hx.
    + intro Hnd. apply NoDup_snoc; [exact Hnd | apply mem_false_not_In, Hmem].
    + subst file_name. intro H. rewrite H. reflexivity.
    + subst file_name. intro H. rewrite H. reflexivity.
Qed.

(** The second [Data] of a run of the project [Bar], at index 3. *)
Lemma package_file_name_witness :
  fst (package_file_name (demo_manager "tesv" [] []) 3
         (package_of "Data" "/proj/src" []) ["data"; "other"])
  = "Bar (3)"
  /\ NoDup (snd (package_file_name (demo_manager "tesv" [] []) 3
                   (package_of "Data" "/proj/src" []) ["data"; "other"])).
Proof.
  destruct (package_file_name_bookkeeping (demo_manager "tesv" [] []) 3
              (package_of "Data" "/proj/src" []) ["data"; "other"])
    as (_ & _ & Hnd & _ & Hren).
  split.
  - apply Hren. reflexivity.
  - apply Hnd. repeat constructor; simpl; intuition discriminate.
Defined.

(** ** The write-permission check leaves no trace *)

(** X9.  Whenever [_check_write_permission] returns normally, the file
    system, the log, the archiver runs and the zip containers are exactly
    as they were: the probing open in append mode changes nothing. *)
Theorem check_write_permission_passes_without_effect
  (file_path : string) (w w' : world) :
  _check_write_permission file_path w = (Ok tt, w') -> w' = w.
Proof.
  unfold _check_write_permission, bind, get_fs.
  destruct (FS.isfile (fs w) file_path) eqn:Hfile.
  - destruct (isfile_open_append _ _ Hfile) as [Hop|Hop];
      unfold except_PermissionError, fs_try, bind, get_fs;
      rewrite Hop; simpl.
    + intro H. inversion H. destruct w. reflexivity.
    + intro H. inversion H.
  - unfold ret. intro H. inversion H. reflexivity.
Qed.

(** The check on a file of the example tree that may be written. *)
Lemma check_write_permission_passes_witness :
  snd (_check_write_permission "/proj/src/top.pex" demo_world) = demo_world.
Proof.
  apply (check_write_permission_passes_without_effect
           "/proj/src/top.pex" demo_world).
  reflexivity.
Defined.

(** ** Actions and what they keep *)

Section Frame.

Context {X : Type} (obs : world -> X).

(** The observation reads neither the file system nor the log. *)
Hypothesis obs_records :
  forall f l r z f' l', obs (mkWorld f l r z) = obs (mkWorld f' l' r z).

Lemma keeps_ret {A : Type} (a : A) : keeps obs (ret a).
Proof. intro w. reflexivity. Qed.

Lemma keeps_exit {A : Type} (n : Z) : keeps obs (@exit A n).
Proof. intro w. reflexivity. Qed.

Lemma keeps_raise {A : Type} (e : exn) : keeps obs (@raise A e).
Proof. intro w. reflexivity. Qed.

Lemma keeps_get_fs : keeps obs get_fs.
Proof. intro w. reflexivity. Qed.

Lemma keeps_set_fs (f : FS.t) : keeps obs (set_fs f).
Proof. intro w. destruct w. apply obs_records. Qed.

Lemma keeps_emit (l : level) (msg : string) : keeps obs (emit l msg).
Proof. intro w. destruct w. apply obs_records. Qed.

Lemma keeps_emit_all (records : list log_record) : keeps obs (emit_all records).
Proof. intro w. destruct w. apply obs_records. Qed.

(** The rule of sequencing: what holds of the continuation from every
    world with the same observation, and of an early exit there, holds of
    the sequence. *)
Lemma bind_post {A B : Type} (m : M A) (k : A -> M B) (w : world)
  (Post : result B * world -> Prop) :
  keeps obs m ->
  (forall a w1, obs w1 = obs w -> Post (k a w1)) ->
  (forall n w1, obs w1 = obs w -> Post (Exited n, w1)) ->
  (forall e w1, obs w1 = obs w -> Post (Raised e, w1)) ->
  Post (bind m k w).
Proof.
  intros Hm Hk Hx Hr. unfold bind. specialize (Hm w).
  destruct (m w) as [[a|n|e] w1]; cbn [snd] in Hm; auto.
Qed.

Lemma keeps_bind {A B : Type} (m : M A) (k : A -> M B) :
  keeps obs m -> (forall a, keeps obs (k a)) -> keeps obs (bind m k).
Proof.
  intros Hm Hk w.
  apply (bind_post m k w (fun rw => obs (snd rw) = obs w)); auto.
  intros a w1 H1. rewrite (Hk a w1). exact H1.
Qed.

Lemma keeps_fs_try (op : FS.t -> result FS.t) : keeps obs (fs_try op).
Proof.
  unfold fs_try. apply keeps_bind; [apply keeps_get_fs|].
  intro f. destruct (op f);
    [apply keeps_set_fs | apply keeps_exit | apply keeps_raise].
Qed.

Lemma keeps_except {A : Type} (m handler : M A) :
  keeps obs m -> keeps obs handler ->
  keeps obs (except_PermissionError m handler).
Proof.
  intros Hm Hh w. unfold except_PermissionError. specialize (Hm w).
  destruct (m w) as [[a|n|[]] w1]; cbn [snd] in Hm |- *; try exact Hm.
  rewrite (Hh w1). exact Hm.
Qed.

Lemma keeps_for_each {A : Type} (xs : list A) (body : A -> M unit) :
  (forall x, keeps obs (body x)) -> keeps obs (for_each xs body).
Proof.
  intro Hbody. induction xs as [|x xs IH]; cbn [for_each].
  - apply keeps_ret.
  - apply keeps_bind; [apply Hbody | intros _; exact IH].
Qed.

Lemma keeps_check_write_permission (file_path : string) :
  keeps obs (_check_write_permission file_path).
Proof.
  unfold _check_write_permission. apply keeps_bind; [apply keeps_get_fs|].
  intro f. destruct (FS.isfile f file_path); [|apply keeps_ret].
  apply keeps_except; [apply keeps_fs_try|].
  apply keeps_bind; [apply keeps_emit | intros _; apply keeps_exit].
Qed.

Lemma keeps_for_include_paths (includes_node : list include_element)
  (root_path : string) (body : string -> M unit) :
  (forall p, keeps obs (body p)) ->
  keeps obs (for_include_paths includes_node root_path body).
Proof.
  intro Hbody. unfold for_include_paths. apply keeps_for_each.
  intro include_node. apply keeps_bind; [apply keeps_get_fs|].
  intro f. destruct (include_paths f include_node root_path) as [warnings paths].
  apply keeps_bind; [apply keeps_emit_all|].
  intros _. apply keeps_for_each, Hbody.
Qed.

Lemma keeps_stage (self : PackageManager) (package_node : element)
  (source_path : string) :
  keeps obs (stage self package_node source_path).
Proof.
  unfold stage. apply keeps_bind; [apply keeps_emit|].
  intros _. apply keeps_bind; [apply keeps_get_fs|].
  intro f. cbv zeta.
  apply keeps_bind; [apply keeps_fs_try | intros _; apply keeps_fs_try].
Qed.

Lemma keeps_clear_temporary_data (self : PackageManager) :
  keeps obs (clear_temporary_data self).
Proof.
  unfold clear_temporary_data. apply keeps_bind; [apply keeps_get_fs|].
  intro f. apply keeps_set_fs.
Qed.

Lemma keeps_resolve_zip_root (self : PackageManager) (zip_root_path : string) :
  keeps obs (resolve_zip_root self zip_root_path).
Proof.
  unfold resolve_zip_root.
  destruct (negb (PosixPath.isabs zip_root_path)); [|apply keeps_ret].
  apply keeps_bind; [apply keeps_get_fs|].
  intro f. destruct (FS.isdir f _); [apply keeps_ret|].
  apply keeps_bind; [apply keeps_emit | intros _; apply keeps_exit].
Qed.

End Frame.

Lemma records_ignore_fs_and_log (f : FS.t) (l : list log_record)
  (r : list bsarch_run) (z : list zip_file) (f' : FS.t) (l' : list log_record) :
  records (mkWorld f l r z) = records (mkWorld f' l' r z).
Proof. reflexivity. Qed.

(** ** One archiver run for each package *)

Lemma runs_appended_same (w w1 : world) (c : nat) (rw : result unit * world) :
  records w1 = records w -> runs_appended w1 c rw -> runs_appended w c rw.
Proof.
  unfold records, runs_appended. intro H. injection H as Hr Hz.
  rewrite Hr, Hz. auto.
Qed.

Lemma runs_appended_stop (w w1 : world) (c : nat) (r : result unit) :
  records w1 = records w -> r <> Ok tt -> runs_appended w c (r, w1).
Proof.
  unfold records, runs_appended. intros H Hr. injection H as Hruns Hz.
  cbn [fst snd]. split; [exact Hz|].
  exists []. rewrite app_nil_r.
  split; [exact Hruns | split; [cbn [List.length]; lia | intro E; contradiction]].
Qed.

Lemma runs_appended_after_run (w : world) (c : nat) (run : bsarch_run)
  (rw : result unit * world) :
  runs_appended
    (mkWorld (fs w) (log w) (bsarch_runs w ++ [run]) (zips w)) c rw ->
  runs_appended w (S c) rw.
Proof.
  unfold runs_appended. cbn [bsarch_runs zips].
  intros (Hz & new & Hruns & Hle & Hok).
  split; [exact Hz|].
  exists (run :: new). rewrite Hruns, <- app_assoc. cbn [app List.length].
  split; [reflexivity | split; [lia | intro E; rewrite (Hok E); reflexivity]].
Qed.

Ltac frame_step lemma :=
  apply (bind_post records);
  [ lemma
  | intros ? ?w1 ?H1; apply (runs_appended_same _ _ _ _ H1); clear H1
  | intros ? ?w1 ?H1; apply (runs_appended_stop _ _ _ _ H1); discriminate
  | intros ? ?w1 ?H1; apply (runs_appended_stop _ _ _ _ H1); discriminate ].

Lemma create_packages_loop_runs (self : PackageManager) (nodes : list element) :
  forall (i : nat) (package_names : list string) (w : world),
    runs_appended w (count_tagged "Package" nodes)
      (create_packages_loop self i nodes package_names w).
Proof.
  induction nodes as [|package_node rest IH]; intros i package_names w.
  - cbn [create_packages_loop]. unfold runs_appended, count_tagged, ret.
    cbn [fst snd filter List.length]. split; [reflexivity|].
    exists []. rewrite app_nil_r.
    split; [reflexivity | split; [cbn [List.length]; lia | reflexivity]].
  - cbn [create_packages_loop]. unfold count_tagged. cbn [filter].
    fold (count_tagged "Package" rest).
    destruct (Str.endswith (tag package_node) "Package"); cbn [negb List.length].
    + destruct (package_file_name self i package_node package_names)
        as [file_name names'].
      frame_step ltac:(apply keeps_check_write_permission, records_ignore_fs_and_log).
      frame_step ltac:(apply keeps_emit, records_ignore_fs_and_log).
      frame_step ltac:(apply keeps_for_include_paths;
                       [apply records_ignore_fs_and_log
                       | intro; apply keeps_stage, records_ignore_fs_and_log]).
      unfold bind at 1, ProcessManager.run_bsarch. cbv beta iota.
      eapply runs_appended_after_run.
      frame_step ltac:(apply keeps_clear_temporary_data, records_ignore_fs_and_log).
      apply IH.
    + apply IH.
Qed.

(** X10.  Whatever the project and the state of the world, and however the
    run ends, [create_packages] opens no zip container and runs the
    archiver at most once for each child of the packages element whose tag
    ends with [Package]; on a normal return it has run it exactly once for
    each, the earlier runs standing before the new ones. *)
Theorem create_packages_runs_archiver_once_per_package
  (self : PackageManager) (w : world) :
  zips (snd (create_packages self w)) = zips w
  /\ exists new,
       bsarch_runs (snd (create_packages self w)) = (bsarch_runs w ++ new)%list
       /\ List.length new <= count_tagged "Package" (packages_node (ppj self))
       /\ (fst (create_packages self w) = Ok tt ->
           List.length new = count_tagged "Package" (packages_node (ppj self))).
Proof.
  change (runs_appended w (count_tagged "Package" (packages_node (ppj self)))
            (create_packages self w)).
  unfold create_packages.
  frame_step ltac:(apply keeps_clear_temporary_data, records_ignore_fs_and_log).
  frame_step ltac:(apply keeps_bind;
                   [ apply keeps_get_fs
                   | intro f; destruct (negb (FS.isdir f _));
                     [ apply keeps_fs_try, records_ignore_fs_and_log
                     | apply keeps_ret ] ]).
  apply create_packages_loop_runs.
Qed.

(** Two packages with a stray child between them: two runs. *)
Lemma create_packages_runs_witness :
  let self :=
    demo_manager "tesv"
      [ package_of "A" "/proj/src" [include_no_recurse "*.pex"];
        mkElement "Comment" "" "" None [];
        package_of "B" "/proj/src/Scripts" [include_no_recurse "*.pex"] ] [] in
  List.length (bsarch_runs (snd (create_packages self demo_world))) = 2.
Proof.
  intro self.
  destruct (create_packages_runs_archiver_once_per_package self demo_world)
    as (_ & new & Hruns & _ & Hok).
  rewrite Hruns. cbn [demo_world bsarch_runs app].
  rewrite Hok; [reflexivity | vm_compute; reflexivity].
Defined.

(** ** One container for each zip file *)

Lemma opened_ignores_fs_and_log (f : FS.t) (l : list log_record)
  (r : list bsarch_run) (z : list zip_file) (f' : FS.t) (l' : list log_record) :
  opened (mkWorld f l r z) = opened (mkWorld f' l' r z).
Proof. reflexivity. Qed.

Lemma zip_paths_add_entry (entry : string * string) (zs : list zip_file) :
  map zip_path (add_entry entry zs) = map zip_path zs.
Proof.
  induction zs as [|z zs IH]; [reflexivity|].
  destruct zs as [|z' zs]; [reflexivity|].
  change (add_entry entry (z :: z' :: zs)) with (z :: add_entry entry (z' :: zs)).
  cbn [map] in *. rewrite IH. reflexivity.
Qed.

Lemma keeps_zip_write (include_path arcname : string) :
  keeps opened (zip_write include_path arcname).
Proof.
  intro w. unfold zip_write, bind, get_fs.
  destruct (FS.stat (fs w) include_path); [|reflexivity].
  unfold opened. cbn [snd bsarch_runs zips].
  rewrite zip_paths_add_entry. reflexivity.
Qed.

Lemma keeps_add_to_zip (zip_root_path include_path : string) :
  keeps opened (add_to_zip zip_root_path include_path).
Proof.
  unfold add_to_zip.
  apply keeps_bind; [apply keeps_emit, opened_ignores_fs_and_log|].
  intros _. destruct (negb (Str.contains zip_root_path include_path)).
  - apply keeps_emit, opened_ignores_fs_and_log.
  - apply keeps_bind; [apply keeps_get_fs | intro f; apply keeps_zip_write].
Qed.

Lemma bind_eq {A B : Type} (m : M A) (k : A -> M B) (w : world) :
  bind m k w
  = match m w with
    | (Ok a, w') => k a w'
    | (Exited n, w') => (Exited n, w')
    | (Raised e, w') => (Raised e, w')
    end.
Proof. reflexivity. Qed.

(** Opening the container and filling it: a failure of the opening leaves
    the containers as they were, and past the opening there is one more
    whatever follows. *)
Lemma zip_open_then (file_path : string) (compress_type : compression)
  (rest : M unit) (w : world) :
  keeps opened rest ->
  (opened (snd ((zip_open file_path compress_type ;; rest) w)) = opened w
   /\ fst ((zip_open file_path compress_type ;; rest) w) <> Ok tt)
  \/ opened (snd ((zip_open file_path compress_type ;; rest) w))
     = (bsarch_runs w, (map zip_path (zips w) ++ [file_path])%list).
Proof.
  intro Hrest.
  pose proof (keeps_fs_try opened opened_ignores_fs_and_log
                (fun f => FS.open_for_write true f file_path) w) as Hopen.
  rewrite bind_eq. unfold zip_open. rewrite bind_eq.
  destruct (fs_try (fun f => FS.open_for_write true f file_path) w)
    as [[[]|n|e] w1]; cbn [snd] in Hopen.
  - right. rewrite Hrest. unfold opened in Hopen |- *.
    injection Hopen as Hr Hz.
    cbn [bsarch_runs zips]. rewrite map_app, Hr, Hz. reflexivity.
  - left. cbn [fst snd]. split; [exact Hopen | discriminate].
  - left. cbn [fst snd]. split; [exact Hopen | discriminate].
Qed.

(** The guarded block of [create_zip] for one declaration either fails
    before the container is opened, or opens exactly the one container. *)
Lemma zip_block_opens_one (file_path : string) (compress_type : compression)
  (includes_node : list include_element) (zip_root_path msg : string)
  (w : world) :
  let block :=
    except_PermissionError
      (zip_open file_path compress_type ;;
       for_include_paths includes_node zip_root_path (add_to_zip zip_root_path) ;;
       emit INFO msg)
      (emit ERROR ("Cannot open ZIP file for writing: " ++ Str.quoted file_path) ;;
       exit 1%Z) in
  (opened (snd (block w)) = opened w /\ fst (block w) <> Ok tt)
  \/ (bsarch_runs (snd (block w)) = bsarch_runs w
      /\ map zip_path (zips (snd (block w)))
         = (map zip_path (zips w) ++ [file_path])%list).
Proof.
  intro block. subst block.
  set (rest := for_include_paths includes_node zip_root_path (add_to_zip zip_root_path) ;;
               emit INFO msg).
  set (handler := emit ERROR ("Cannot open ZIP file for writing: "
                              ++ Str.quoted file_path) ;; exit 1%Z).
  assert (Hrest : keeps opened rest).
  { apply keeps_bind.
    - apply keeps_for_include_paths;
        [apply opened_ignores_fs_and_log | intro; apply keeps_add_to_zip].
    - intros _. apply keeps_emit, opened_ignores_fs_and_log. }
  assert (Hhandler : keeps opened handler).
  { apply keeps_bind; [apply keeps_emit, opened_ignores_fs_and_log|].
    intros _. apply keeps_exit. }
  assert (Hexit : forall w1, fst (handler w1) <> Ok tt).
  { intro w1. unfold handler, bind, emit, exit. cbn [fst]. discriminate. }
  pose proof (zip_open_then file_path compress_type rest w Hrest) as Hinner.
  unfold except_PermissionError.
  destruct ((zip_open file_path compress_type ;; rest) w) as [[a|n|e] w1];
    cbn [fst snd] in Hinner.
  - destruct Hinner as [[Ho Hne]|Ho].
    + left. cbn [fst snd]. split; assumption.
    + right. cbn [snd]. unfold opened in Ho. injection Ho as Hr Hz.
      split; assumption.
  - destruct Hinner as [[Ho Hne]|Ho].
    + left. cbn [fst snd]. split; assumption.
    + right. cbn [snd]. unfold opened in Ho. injection Ho as Hr Hz.
      split; assumption.
  - pose proof (Hhandler w1) as Hh.
    destruct Hinner as [[Ho Hne]|Ho].
    + left. destruct e; cbn [fst snd]; try (split; assumption).
      split; [rewrite Hh; exact Ho | apply Hexit].
    + right. rewrite Ho in Hh.
      destruct e; cbn [snd];
        unfold opened in Ho; injection Ho as Hr Hz; split; assumption.
Qed.

Lemma zips_opened_same (w w1 : world) (c : nat) (rw : result unit * world) :
  opened w1 = opened w -> zips_opened w1 c rw -> zips_opened w c rw.
Proof.
  unfold opened, zips_opened. intro H. injection H as Hr Hz.
  rewrite Hr, Hz. auto.
Qed.

Lemma zips_opened_stop (w w1 : world) (c : nat) (r : result unit) :
  opened w1 = opened w -> r <> Ok tt -> zips_opened w c (r, w1).
Proof.
  unfold opened, zips_opened. intros H Hr. injection H as Hruns Hz.
  cbn [fst snd]. split; [exact Hruns|].
  exists []. rewrite app_nil_r.
  split; [exact Hz | split; [cbn [List.length]; lia | intro E; contradiction]].
Qed.

Ltac zip_frame_step lemma :=
  apply (bind_post opened);
  [ lemma
  | intros ? ?w1 ?H1; apply (zips_opened_same _ _ _ _ H1); clear H1
  | intros ? ?w1 ?H1; apply (zips_opened_stop _ _ _ _ H1); discriminate
  | intros ? ?w1 ?H1; apply (zips_opened_stop _ _ _ _ H1); discriminate ].

Lemma create_zip_loop_opens (self : PackageManager) (nodes : list element) :
  forall (i : nat) (zip_names : list string) (w : world),
    zips_opened w (count_tagged "ZipFile" nodes)
      (create_zip_loop self i nodes zip_names w).
Proof.
  induction nodes as [|zip_node rest IH]; intros i zip_names w.
  - cbn [create_zip_loop]. unfold zips_opened, count_tagged, ret.
    cbn [fst snd filter List.length]. split; [reflexivity|].
    exists []. rewrite app_nil_r.
    split; [reflexivity | split; [cbn [List.length]; lia | reflexivity]].
  - cbn [create_zip_loop]. unfold count_tagged. cbn [filter].
    fold (count_tagged "ZipFile" rest).
    destruct (Str.endswith (tag zip_node) "ZipFile"); cbn [negb List.length];
      [|apply IH].
    destruct (zip_file_name i zip_node zip_names) as [file_name names'].
    zip_frame_step ltac:(apply keeps_check_write_permission, opened_ignores_fs_and_log).
    zip_frame_step ltac:(apply keeps_emit, opened_ignores_fs_and_log).
    zip_frame_step ltac:(apply keeps_resolve_zip_root, opened_ignores_fs_and_log).
    unfold bind at 1.
    match goal with
    | |- context [except_PermissionError (zip_open ?fp ?ct ;; for_include_paths ?incs ?root _ ;; emit INFO ?msg) _ ?w0] =>
        pose proof (zip_block_opens_one fp ct incs root msg w0) as Hblock;
        cbv zeta in Hblock;
        destruct (except_PermissionError
                    (zip_open fp ct ;; for_include_paths incs root (add_to_zip root) ;;
                     emit INFO msg)
                    (emit ERROR ("Cannot open ZIP file for writing: " ++ Str.quoted fp) ;;
                     exit 1%Z) w0) as [[[]|n|e] wz];
        cbn [fst snd] in Hblock
    end.
    + destruct Hblock as [[_ Hne]|[Hr Hz]]; [contradiction Hne; reflexivity|].
      destruct (IH (S i) names' wz) as (Hruns & new & Hzips & Hle & Hok).
      unfold count_tagged in Hle, Hok |- *.
      split; [rewrite Hruns; exact Hr|].
      exists (PosixPath.join (zip_output_path (options self))
                (_fix_zip_extension self file_name) :: new).
      rewrite Hzips, Hz, <- app_assoc. cbn [app List.length].
      split; [reflexivity | split; [lia | intro E; rewrite (Hok E); reflexivity]].
    + cbn [fst snd]. destruct Hblock as [[Ho _]|[Hr Hz]].
      * apply (zips_opened_stop _ _ _ _ Ho). discriminate.
      * split; [exact Hr|]. eexists. split; [exact Hz|].
        cbn [List.length fst]. split; [lia | discriminate].
    + cbn [fst snd]. destruct Hblock as [[Ho _]|[Hr Hz]].
      * apply (zips_opened_stop _ _ _ _ Ho). discriminate.
      * split; [exact Hr|]. eexists. split; [exact Hz|].
        cbn [List.length fst]. split; [lia | discriminate].
Qed.

(** X11.  Whatever the project and the state of the world, and however the
    run ends, [create_zip] never runs the archiver and opens at most one
    zip container for each child of the zip-files element whose tag ends
    with [ZipFile]; on a normal return it has opened exactly one for each,
    the containers of before standing first. *)
Theorem create_zip_opens_one_container_per_zip_file
  (self : PackageManager) (w : world) :
  bsarch_runs (snd (create_zip self w)) = bsarch_runs w
  /\ exists new,
       map zip_path (zips (snd (create_zip self w)))
       = (map zip_path (zips w) ++ new)%list
       /\ List.length new <= count_tagged "ZipFile" (zip_files_node (ppj self))
       /\ (fst (create_zip self w) = Ok tt ->
           List.length new = count_tagged "ZipFile" (zip_files_node (ppj self))).
Proof.
  change (zips_opened w (count_tagged "ZipFile" (zip_files_node (ppj self)))
            (create_zip self w)).
  unfold create_zip.
  zip_frame_step ltac:(unfold ensure_zip_output_path; apply keeps_bind;
                       [ apply keeps_get_fs
                       | intro f; destruct (negb (FS.isdir f _));
                         [ apply keeps_fs_try, opened_ignores_fs_and_log
                         | apply keeps_ret ] ]).
  apply create_zip_loop_opens.
Qed.

(** Two zip files with a stray child between them: two containers. *)
Lemma create_zip_opens_witness :
  let self :=
    demo_manager "tesv" []
      [ zip_of "A" "/proj/src" [include_of "Scripts"];
        mkElement "Comment" "" "" None [];
        zip_of "B" "/proj/src" [include_no_recurse "*.pex"] ] in
  List.length (zips (snd (create_zip self demo_world))) = 2.
Proof.
  intro self.
  destruct (create_zip_opens_one_container_per_zip_file self demo_world)
    as (_ & new & Hzips & _ & Hok).
  rewrite <- (length_map zip_path), Hzips. cbn [demo_world zips map app].
  rewrite Hok; [reflexivity | vm_compute; reflexivity].
Defined.

(** ** Children that are no declarations *)

(** X12.  Children of the packages element whose tag does not end with
    [Package] are passed over without any effect, but they are counted:
    the loop of [create_packages] over such children followed by [nodes] is
    the loop over [nodes] started at the index moved on by their number, so
    the index a colliding name receives counts them too. *)
Theorem stray_children_shift_the_package_index
  (self : PackageManager) (skipped nodes : list element) :
  Forall (fun n => Str.endswith (tag n) "Package" = false) skipped ->
  forall (i : nat) (package_names : list string) (w : world),
    create_packages_loop self i (skipped ++ nodes) package_names w
    = create_packages_loop self (i + List.length skipped) nodes package_names w.
Proof.
  intro Hskipped. induction Hskipped as [|n skipped Hn _ IH];
    intros i package_names w.
  - cbn [app List.length]. rewrite Nat.add_0_r. reflexivity.
  - cbn [app List.length create_packages_loop]. rewrite Hn. cbn [negb].
    rewrite IH, Nat.add_succ_r. reflexivity.
Qed.

(** With a comment before two packages named [A], the second is renamed
    with index 2. *)
Lemma stray_children_package_witness :
  let a := package_of "A" "/proj/src" [] in
  let self := demo_manager "tesv" [] [] in
  create_packages_loop self 0 [mkElement "Comment" "" "" None []; a; a] []
    demo_world
  = create_packages_loop self 1 [a; a] [] demo_world
  /\ fst (package_file_name self 2 a ["a"]) = "Bar (2)".
Proof.
  intros a self. split; [|reflexivity].
  apply (stray_children_shift_the_package_index self
           [mkElement "Comment" "" "" None []] [a; a]).
  repeat constructor.
Defined.

(** X13.  Children of the zip-files element whose tag does not end with
    [ZipFile] are passed over without any effect, but they are counted: the
    loop of [create_zip] over such children followed by [nodes] is the loop
    over [nodes] started at the index moved on by their number. *)
Theorem stray_children_shift_the_zip_index
  (self : PackageManager) (skipped nodes : list element) :
  Forall (fun n => Str.endswith (tag n) "ZipFile" = false) skipped ->
  forall (i : nat) (zip_names : list string) (w : world),
    create_zip_loop self i (skipped ++ nodes) zip_names w
    = create_zip_loop self (i + List.length skipped) nodes zip_names w.
Proof.
  intro Hskipped. induction Hskipped as [|n skipped Hn _ IH];
    intros i zip_names w.
  - cbn [app List.length]. rewrite Nat.add_0_r. reflexivity.
  - cbn [app List.length create_zip_loop]. rewrite Hn. cbn [negb].
    rewrite IH, Nat.add_succ_r. reflexivity.
Qed.

(** With a comment before two zip files named [A], the second is renamed
    with index 2. *)
Lemma stray_children_zip_witness :
  let a := zip_of "A" "/proj/src" [] in
  let self := demo_manager "tesv" [] [] in
  create_zip_loop self 0 [mkElement "Comment" "" "" None []; a; a] [] demo_world
  = create_zip_loop self 1 [a; a] [] demo_world
  /\ fst (zip_file_name 2 a ["a"]) = "A (2)".
Proof.
  intros a self. split; [|reflexivity].
  apply (stray_children_shift_the_zip_index self
           [mkElement "Comment" "" "" None []] [a; a]).
  repeat constructor.
Defined.
